(** * pypal.service.adaptive_payment

    A shallow embedding of [pypal/service/adaptive_payment.py] and the
    properties its specification states about it.

    Python values are a small universe [pyval]; mappings that are sent to
    PayPal are finite maps from field names to values; functions that can
    raise return a [res]; functions that mutate an object or reach the
    network run in a state-and-exception monad [SE]. *)

From Stdlib Require Import Ascii String.
From stdpp Require Import gmap strings list fin_maps.

Set Warnings "-register-all".
Open Scope string_scope.

(** ** Values *)

(** The Python values that reach this module.  [PClient] is an object with
    none of the mapping, sequence or truth protocols: it stands for the client
    where it occurs as a value (in a [locals()] mapping). *)
Inductive pyval : Type :=
| PNone
| PBool (b : bool)
| PStr (s : string)
| PList (l : list pyval)
| PTuple (l : list pyval)
| PDict (d : gmap string pyval)
| PReceiverList (l : list pyval)
| PClient.

Abbreviation dict := (gmap string pyval).

(** [bool(v)]: what [if v] and [not v] test. *)
Definition truthy (v : pyval) : bool :=
  match v with
  | PNone => false
  | PBool b => b
  | PStr s => negb (String.eqb s "")
  | PList l | PTuple l | PReceiverList l => negb (Nat.eqb (length l) 0)
  | PDict d => negb (bool_decide (d = ∅))
  | PClient => true
  end.

(** [hash(v)] succeeds: lists and dicts (and [ReceiverList], a list) are
    unhashable, a tuple is hashable when its items are. *)
Fixpoint hashable (v : pyval) : bool :=
  match v with
  | PList _ | PDict _ | PReceiverList _ => false
  | PTuple l => forallb hashable l
  | PNone | PBool _ | PStr _ | PClient => true
  end.

(** ** Exceptions *)

(** The three [raise ValueError(...)] sites of [pay]; each carries the value
    that the source formats into its message. *)
Inductive value_error : Type :=
| CurrencyCodeNotSupported (currency_code : pyval)
| PaymentActionNotSupported (action_type : pyval)
| FeesPayerNotSupported (fees_payer : pyval).

Inductive pyerr : Type :=
| MissingRequiredField (name : string)
| ValueError (e : value_error)
| TypeError (msg : string)
| AttributeError (attr : string)
| ClientError (msg : string).

Inductive res (A : Type) : Type :=
| Ok (a : A)
| Raise (e : pyerr).
Arguments Ok {A} a.
Arguments Raise {A} e.

(** ** State and exceptions *)

Definition SE (S A : Type) : Type := S -> res A * S.

Definition ret {S A : Type} (a : A) : SE S A := fun s => (Ok a, s).

Definition raise {S A : Type} (e : pyerr) : SE S A := fun s => (Raise e, s).

Definition lift {S A : Type} (r : res A) : SE S A := fun s => (r, s).

Definition bind {S A B : Type} (m : SE S A) (k : A -> SE S B) : SE S B :=
  fun s =>
    match m s with
    | (Ok a, s') => k a s'
    | (Raise e, s') => (Raise e, s')
    end.

Notation "'do' x <- m ; k" := (bind m (fun x => k))
  (at level 10, x name, m at level 100, k at level 200,
   format "'[v' 'do'  x  <-  m ; '/' k ']'").
Notation "'do_' m ; k" := (bind m (fun _ => k))
  (at level 10, m at level 100, k at level 200,
   format "'[v' 'do_'  m ; '/' k ']'").

(** ** Built-in operations *)

(** [obj.get(key, default)]: only a dict has the method. *)
Definition py_get (obj : pyval) (key : string) (dflt : pyval) : res pyval :=
  match obj with
  | PDict d => Ok (default dflt (d !! key))
  | _ => Raise (AttributeError "get")
  end.

(** The items [for obj in iterable] visits.  A string yields its characters
    and a dict its keys, all strings. *)
Definition py_iter (iterable : pyval) : res (list pyval) :=
  match iterable with
  | PList l | PTuple l | PReceiverList l => Ok l
  | PStr s => Ok ((fun c => PStr (String c "")) <$> String.list_ascii_of_string s)
  | PDict d => Ok (PStr <$> (map_to_list d).*1)
  | PNone | PBool _ | PClient => Raise (TypeError "object is not iterable")
  end.

(** [v in frozenset(strs)] for a frozenset of strings: hashes [v] first. *)
Definition py_in (v : pyval) (strs : list string) : res bool :=
  if hashable v then
    Ok (match v with
        | PStr s => bool_decide (s ∈ strs)
        | _ => false
        end)
  else Raise (TypeError "unhashable type").

(** [fmt % arg] for a format with one [%s] and a string argument. *)
Fixpoint format_s (fmt arg : string) : string :=
  match fmt with
  | String "%"%char (String "s"%char rest) => arg +:+ rest
  | String c rest => String c (format_s rest arg)
  | EmptyString => EmptyString
  end.

(** [fmt % v] for a format with one [%s], as far as it can raise: a tuple
    is taken as the tuple of arguments, so it has to have exactly one item;
    any other value is the one argument. *)
Definition py_format_one (v : pyval) : res unit :=
  match v with
  | PTuple [] => Raise (TypeError "not enough arguments for format string")
  | PTuple [_] => Ok tt
  | PTuple _ =>
      Raise (TypeError "not all arguments converted during string formatting")
  | _ => Ok tt
  end.

(** ** Constants *)

Definition PRODUCTION_ENDPOINT : string := "https://svcs.paypal.com".
Definition SANDBOX_ENDPOINT : string := "https://svcs.sandbox.paypal.com".

Definition ACTION_PAY : string := "PAY".
Definition ACTION_CREATE : string := "CREATE".
Definition ACTION_PAY_PRIMARY : string := "PAY_PRIMARY".

Definition SUPPORTED_PAY_ACTIONS : list string :=
  [ACTION_PAY; ACTION_CREATE; ACTION_PAY_PRIMARY].

Definition FEE_PAYER_SENDER : string := "SENDER".
Definition FEE_PAYER_PRIMARY_RECEIVER : string := "PRIMARYRECEIVER".
Definition FEE_PAYER_EACH_RECEIVER : string := "EACHRECEIVER".
Definition FEE_PAYER_SECONDARY_RECEIVERS : string := "SECONDARYONLY".

Definition SUPPORTED_FEE_PAYERS : list string :=
  [FEE_PAYER_SENDER; FEE_PAYER_PRIMARY_RECEIVER;
   FEE_PAYER_EACH_RECEIVER; FEE_PAYER_SECONDARY_RECEIVERS].

(** ** ReceiverList *)

(** The methods of [class ReceiverList(list)].  The state is the list
    itself ([self]); a method returns its Python result or raises, and leaves
    the items it has already stored in place. *)
Module ReceiverList.

(** The entry [append] stores for [obj]. *)
Definition sanitized (obj : pyval) : res pyval :=
  match py_get obj "email" PNone,
        py_get obj "amount" PNone,
        py_get obj "primary" (PStr "false") with
  | Ok email, Ok amount, Ok primary =>
      Ok (PDict (<["email" := email]>
                 (<["amount" := amount]>
                  (<["primary" := primary]> ∅))))
  | Raise e, _, _ | _, Raise e, _ | _, _, Raise e => Raise e
  end.

Definition append (obj : pyval) : SE (list pyval) pyval :=
  do email <- lift (py_get obj "email" PNone);
  do amount <- lift (py_get obj "amount" PNone);
  if negb (truthy email) && negb (truthy amount) then ret (PBool false)
  else
    do entry <- lift (sanitized obj);
    fun self => (Ok PNone, (self ++ [entry])%list).

(** [for obj in iterable: self.append(obj)], over the items of an iterable
    that is another object than [self]. *)
Fixpoint extend_items (items : list pyval) : SE (list pyval) unit :=
  match items with
  | [] => ret tt
  | obj :: rest => do_ append obj; extend_items rest
  end.

Definition extend (iterable : pyval) : SE (list pyval) unit :=
  do items <- lift (py_iter iterable);
  extend_items items.

Definition init (iterable : pyval) : SE (list pyval) unit :=
  if truthy iterable then extend iterable else ret tt.

(** [ReceiverList(iterable)]: a new, empty list object run through
    [__init__]; no object results when [__init__] raises. *)
Definition new (iterable : pyval) : res (list pyval) :=
  match init iterable [] with
  | (Ok _, self) => Ok self
  | (Raise e, _) => Raise e
  end.

(** [insert] is not defined by the class: it is the one of [list], which
    stores [obj] as it is, before position [index]; a negative index counts
    from the end, and an index beyond either end is that end. *)
Definition insert (index : Z) (obj : pyval) : SE (list pyval) pyval :=
  fun self =>
    let n := Z.of_nat (length self) in
    let i := if (index <? 0)%Z then Z.max 0 (index + n) else Z.min index n in
    (Ok PNone,
     (take (Z.to_nat i) self ++ obj :: drop (Z.to_nat i) self)%list).

End ReceiverList.

(** ** The client, the network and the module's state *)

(** One [client.call(service, method, endpoint=..., **params)]. *)
Record request : Type := {
  service : string;
  method : string;
  endpoint : string;
  params : dict
}.

(** What [client.call] returns: [response.success] and the fields that
    [response.get(name, None)] reads. *)
Record response : Type := {
  success : bool;
  fields : gmap string string
}.

Record config : Type := {
  in_sandbox : bool
}.

(** An instance of [pypal.Client], as far as this module uses it. *)
Record client : Type := {
  client_config : config;
  get_paypal_url : string -> string;
  client_call : request -> res response
}.

(** What outlives a call: the requests handed to the client so far, and the
    mapping objects created once, at definition time, by the [extra={}]
    defaults of [pay], [get_payment_url] and [set_payment_options]. *)
Record world : Type := {
  net : list request;
  pay_extra : dict;
  get_payment_url_extra : dict;
  set_payment_options_extra : dict
}.

Definition initial_world : world :=
  {| net := []; pay_extra := ∅; get_payment_url_extra := ∅;
     set_payment_options_extra := ∅ |}.

Definition send (c : client) (req : request) : SE world response :=
  fun w =>
    (client_call c req,
     {| net := net w ++ [req]; pay_extra := pay_extra w;
        get_payment_url_extra := get_payment_url_extra w;
        set_payment_options_extra := set_payment_options_extra w |}).

Definition set_pay_extra (d : dict) : SE world unit :=
  fun w =>
    (Ok tt,
     {| net := net w; pay_extra := d;
        get_payment_url_extra := get_payment_url_extra w;
        set_payment_options_extra := set_payment_options_extra w |}).

Definition set_set_payment_options_extra (d : dict) : SE world unit :=
  fun w =>
    (Ok tt,
     {| net := net w; pay_extra := pay_extra w;
        get_payment_url_extra := get_payment_url_extra w;
        set_payment_options_extra := d |}).

(** The object bound to a parameter [extra={}]: the caller's, or the
    function's one default object with the content it has by now. *)
Definition extra_or_default (extra : option pyval) (field : world -> dict)
  : SE world pyval :=
  fun w =>
    (Ok (match extra with
         | Some v => v
         | None => PDict (field w)
         end), w).

(** ** pypal.util *)

(** A mapping from names to values in the order of its keys: [locals()] and
    the keyword arguments of a call. *)
Fixpoint lookup_name (values : list (string * pyval)) (name : string)
  : option pyval :=
  match values with
  | [] => None
  | (k, v) :: rest => if String.eqb k name then Some v else lookup_name rest name
  end.

(** Modelled from the spec: [pypal.util.check_required] is imported by this
    module and defined elsewhere.  For each required name, in the order
    given, it fails with a missing-required-field error carrying the name
    when the value is absent or empty, so the first such name is reported. *)
Fixpoint check_required (values : list (string * pyval))
    (required : list string) : res unit :=
  match required with
  | [] => Ok tt
  | name :: rest =>
      match lookup_name values name with
      | Some v =>
          if truthy v then check_required values rest
          else Raise (MissingRequiredField name)
      | None => Raise (MissingRequiredField name)
      end
  end.

(** Modelled from the spec: [pypal.util.set_nonempty_param] is imported by
    this module and defined elsewhere.  It stores [key: value] in the target
    only when the value is non-empty, and does nothing otherwise. *)
Definition set_nonempty_param (target : dict) (key : string) (value : pyval)
  : dict :=
  if truthy value then <[key := value]> target else target.

(** [target.update(other)]. *)
Definition py_update (target other : dict) : dict := other ∪ target.

(** ** The service *)

(** [call]: picks the endpoint and hands the request to the client.  The
    call [client.call('AdaptivePayments', method, endpoint=endpoint, **params)]
    raises when [params] has a key [endpoint] of its own. *)
Definition call (c : client) (method : string) (params : dict)
  : SE world response :=
  let endpoint := [PRODUCTION_ENDPOINT; SANDBOX_ENDPOINT] in
  let endpoint := nth (Nat.b2n (in_sandbox (client_config c))) endpoint "" in
  match params !! "endpoint" with
  | Some _ =>
      raise (TypeError "got multiple values for keyword argument 'endpoint'")
  | None =>
      send c {| service := "AdaptivePayments"; method := method;
                endpoint := endpoint; params := params |}
  end.

Definition generate_pay_url (c : client) (pay_key : string) (embedded : bool)
  : string :=
  let paths := ["/cgi-bin/webscr?cmd=_ap-payment&paykey=%s";
                "/webapps/adaptivepayment/flow/pay?paykey=%s"] in
  get_paypal_url c (format_s (nth (Nat.b2n embedded) paths "") pay_key).

Definition is_ReceiverList (v : pyval) : bool :=
  match v with
  | PReceiverList _ => true
  | _ => false
  end.

Definition is_list_or_tuple (v : pyval) : bool :=
  match v with
  | PList _ | PTuple _ | PReceiverList _ => true
  | _ => false
  end.

Definition PAY_REQUIRED : list string :=
  ["cancel_url"; "return_url"; "currency_code";
   "action_type"; "receivers"; "ipn_callback_url"].

Section Service.

(** [pypal.currency.is_valid_code], defined elsewhere. *)
Variable is_valid_code : pyval -> bool.

(** [pay]; [extra] is [None] when the caller leaves the parameter to its
    default.  The default object is updated in place, so what is stored in
    it is still there at the next call. *)
Definition pay (c : client)
    (action_type currency_code cancel_url return_url ipn_callback_url
     receivers fees_payer : pyval) (extra : option pyval)
  : SE world response :=
  do extra_obj <- extra_or_default extra pay_extra;
  let locals :=
    [("client", PClient); ("action_type", action_type);
     ("currency_code", currency_code); ("cancel_url", cancel_url);
     ("return_url", return_url); ("ipn_callback_url", ipn_callback_url);
     ("receivers", receivers); ("fees_payer", fees_payer);
     ("extra", extra_obj)] in
  do_ lift (check_required locals PAY_REQUIRED);
  do_ (if negb (is_valid_code currency_code)
       then
         do_ lift (py_format_one currency_code);
         raise (ValueError (CurrencyCodeNotSupported currency_code))
       else ret tt);
  do supported <- lift (py_in action_type SUPPORTED_PAY_ACTIONS);
  do_ (if negb supported
       then raise (ValueError (PaymentActionNotSupported action_type))
       else ret tt);
  do_ (if truthy fees_payer
       then
         do supported <- lift (py_in fees_payer SUPPORTED_FEE_PAYERS);
         if negb supported
         then
           do_ lift (py_format_one fees_payer);
           raise (ValueError (FeesPayerNotSupported fees_payer))
         else ret tt
       else ret tt);
  do receivers <-
    lift (if is_ReceiverList receivers then Ok receivers
          else
            let receivers :=
              if is_list_or_tuple receivers then receivers
              else PList [receivers] in
            match ReceiverList.new receivers with
            | Ok l => Ok (PReceiverList l)
            | Raise e => Raise e
            end);
  match extra_obj with
  | PDict d =>
      let d :=
        py_update d
          (<["actionType" := action_type]>
           (<["receiverList" := PDict {["receiver" := receivers]}]>
            (<["currencyCode" := currency_code]>
             (<["cancelUrl" := cancel_url]>
              (<["returnUrl" := return_url]> ∅))))) in
      let d := set_nonempty_param d "ipnNotificationUrl" ipn_callback_url in
      let d := set_nonempty_param d "feesPayer" fees_payer in
      do_ (match extra with
           | Some _ => ret tt
           | None => set_pay_extra d
           end);
      call c "Pay" d
  | _ => raise (AttributeError "update")
  end.

Definition PAY_PARAMETERS : list string :=
  ["client"; "action_type"; "currency_code"; "cancel_url"; "return_url";
   "ipn_callback_url"; "receivers"; "fees_payer"; "extra"].

(** [pay] called with keyword arguments unpacked from a mapping: every
    keyword has to name a parameter of [pay], and the parameters without a
    default have to be given. *)
Definition pay_kwargs (c : client) (kwargs : list (string * pyval))
  : SE world response :=
  match find (fun k => negb (bool_decide (k ∈ PAY_PARAMETERS))) kwargs.*1 with
  | Some k =>
      raise (TypeError
               ("pay() got an unexpected keyword argument '" +:+ k +:+ "'"))
  | None =>
      match lookup_name kwargs "client",
            lookup_name kwargs "action_type",
            lookup_name kwargs "currency_code",
            lookup_name kwargs "cancel_url",
            lookup_name kwargs "return_url",
            lookup_name kwargs "ipn_callback_url" with
      | Some _, Some action_type, Some currency_code,
        Some cancel_url, Some return_url, Some ipn_callback_url =>
          pay c action_type currency_code cancel_url return_url
            ipn_callback_url
            (default PNone (lookup_name kwargs "receivers"))
            (default PNone (lookup_name kwargs "fees_payer"))
            (lookup_name kwargs "extra")
      | _, _, _, _, _, _ =>
          raise (TypeError "pay() missing required positional arguments")
      end
  end.

(** [get_payment_url]: [locals()] holds all ten parameters, and all ten
    are passed on to [pay] by keyword. *)
Definition get_payment_url (c : client)
    (action_type currency_code cancel_url return_url ipn_callback_url
     receivers fees_payer : pyval) (extra : option pyval) (embedded : bool)
  : SE world (option string) :=
  do extra_obj <- extra_or_default extra get_payment_url_extra;
  let locals :=
    [("client", PClient); ("action_type", action_type);
     ("currency_code", currency_code); ("cancel_url", cancel_url);
     ("return_url", return_url); ("ipn_callback_url", ipn_callback_url);
     ("receivers", receivers); ("fees_payer", fees_payer);
     ("extra", extra_obj); ("embedded", PBool embedded)] in
  do response <- pay_kwargs c locals;
  if negb (success response) then ret None
  else
    match fields response !! "payKey" with
    | None => ret None
    | Some pay_key =>
        if String.eqb pay_key "" then ret None
        else ret (Some (generate_pay_url c pay_key embedded))
    end.

Definition get_payment_options (c : client) (pay_key : pyval)
  : SE world response :=
  call c "GetPaymentOptions" {["payKey" := pay_key]}.

Definition set_payment_options (c : client)
    (pay_key receiver_options display_options sender_options
     shipping_address_id initiating_entity : pyval) (extra : option pyval)
  : SE world response :=
  do extra_obj <- extra_or_default extra set_payment_options_extra;
  match extra_obj with
  | PDict d =>
      let d := <["payKey" := pay_key]> d in
      let d := set_nonempty_param d "initiatingEntity" initiating_entity in
      let d := set_nonempty_param d "displayOptions" display_options in
      let d := set_nonempty_param d "shippingAddressId" shipping_address_id in
      let d := set_nonempty_param d "senderOptions" sender_options in
      let d := set_nonempty_param d "receiverOptions" receiver_options in
      do_ (match extra with
           | Some _ => ret tt
           | None => set_set_payment_options_extra d
           end);
      call c "SetPaymentOptions" d
  | _ => raise (TypeError "object does not support item assignment")
  end.

Definition execute (c : client) (pay_key : pyval) : SE world response :=
  call c "ExecutePayment" {["payKey" := pay_key]}.

Definition get_shipping_addresses (c : client) (key : pyval)
  : SE world response :=
  call c "GetShippingAddresses" {["key" := key]}.

End Service.

(** * Properties *)

(** ** Receiver records *)

(** [record.get(key)], with [None] for an absent key. *)
Definition field (record : dict) (key : string) : pyval :=
  default PNone (record !! key).

(** At least one of [email] and [amount] is there and non-empty. *)
Definition populated (record : dict) : bool :=
  truthy (field record "email") || truthy (field record "amount").

(** The three-field entry stored for a record. *)
Definition canonical (record : dict) : dict :=
  <["email" := field record "email"]>
    (<["amount" := field record "amount"]>
       (<["primary" := default (PStr "false") (record !! "primary")]> ∅)).

(** A stored item that is a mapping with [email] or [amount] populated. *)
Definition entry_populated (v : pyval) : Prop :=
  exists e : dict, v = PDict e /\ populated e = true.

(** The lists a [ReceiverList] object holds as long as only the operations
    the class defines are used on it: what the constructor leaves, and what
    [append] and [extend] leave, also when they raise.  The operations the
    class inherits from [list] unchanged ([insert] and the like) are not
    among these. *)
Inductive built : list pyval -> Prop :=
| built_new iterable self :
    ReceiverList.new iterable = Ok self -> built self
| built_append obj self r self' :
    built self -> ReceiverList.append obj self = (r, self') -> built self'
| built_extend iterable self r self' :
    built self -> ReceiverList.extend iterable self = (r, self') -> built self'.

Lemma append_record (d : dict) (self : list pyval) :
  ReceiverList.append (PDict d) self =
  if populated d then (Ok PNone, (self ++ [PDict (canonical d)])%list)
  else (Ok (PBool false), self).
Proof.
  unfold ReceiverList.append, ReceiverList.sanitized, bind, lift, ret.
  unfold populated, canonical, field. simpl.
  destruct (truthy (default PNone (d !! "email")));
    destruct (truthy (default PNone (d !! "amount"))); reflexivity.
Qed.

Lemma append_other (obj : pyval) (self : list pyval) :
  (forall d, obj <> PDict d) ->
  ReceiverList.append obj self = (Raise (AttributeError "get"), self).
Proof.
  intros Hobj. destruct obj; try reflexivity. exfalso. eapply Hobj; reflexivity.
Qed.

Lemma canonical_field_email (d : dict) :
  field (canonical d) "email" = field d "email".
Proof. unfold canonical, field. rewrite lookup_insert_eq. reflexivity. Qed.

Lemma canonical_field_amount (d : dict) :
  field (canonical d) "amount" = field d "amount".
Proof.
  unfold canonical, field.
  rewrite lookup_insert_ne by discriminate.
  rewrite lookup_insert_eq. reflexivity.
Qed.

Lemma populated_canonical (d : dict) : populated (canonical d) = populated d.
Proof.
  unfold populated. rewrite canonical_field_email, canonical_field_amount.
  reflexivity.
Qed.

Lemma append_keeps_populated (obj : pyval) (self : list pyval) r self' :
  Forall entry_populated self ->
  ReceiverList.append obj self = (r, self') ->
  Forall entry_populated self'.
Proof.
  intros Hself Happ. destruct obj;
    try (cbv in Happ; inversion Happ; subst; exact Hself).
  rewrite append_record in Happ. destruct (populated d) eqn:Hpop.
  - inversion Happ; subst. apply Forall_app. split; [exact Hself|].
    constructor; [|constructor].
    exists (canonical d). split; [reflexivity|].
    rewrite populated_canonical. exact Hpop.
  - inversion Happ; subst. exact Hself.
Qed.

Lemma extend_items_keeps_populated (items : list pyval) :
  forall self r self',
    Forall entry_populated self ->
    ReceiverList.extend_items items self = (r, self') ->
    Forall entry_populated self'.
Proof.
  induction items as [|obj rest IH]; intros self r self' Hself Hext.
  - cbv in Hext. inversion Hext; subst. exact Hself.
  - simpl in Hext. unfold bind in Hext.
    destruct (ReceiverList.append obj self) as [[a|e] self1] eqn:Happ.
    + eapply IH; [|exact Hext]. eapply append_keeps_populated; eauto.
    + inversion Hext; subst. eapply append_keeps_populated; eauto.
Qed.

Lemma extend_keeps_populated (iterable : pyval) (self : list pyval) r self' :
  Forall entry_populated self ->
  ReceiverList.extend iterable self = (r, self') ->
  Forall entry_populated self'.
Proof.
  intros Hself Hext. unfold ReceiverList.extend, bind, lift in Hext.
  destruct (py_iter iterable) as [items|e].
  - eapply extend_items_keeps_populated; eauto.
  - inversion Hext; subst. exact Hself.
Qed.

Lemma new_populated (iterable : pyval) (self : list pyval) :
  ReceiverList.new iterable = Ok self -> Forall entry_populated self.
Proof.
  unfold ReceiverList.new, ReceiverList.init. intros Hnew.
  destruct (truthy iterable).
  - destruct (ReceiverList.extend iterable []) as [[u|e] self1] eqn:Hext;
      [|discriminate].
    inversion Hnew; subst.
    eapply extend_keeps_populated; [|exact Hext]. constructor.
  - cbv in Hnew. inversion Hnew; subst. constructor.
Qed.

Lemma built_populated (self : list pyval) :
  built self -> Forall entry_populated self.
Proof.
  induction 1 as [iterable self Hnew
                 |obj self r self' _ IH Happ
                 |iterable self r self' _ IH Hext].
  - eapply new_populated; eauto.
  - eapply append_keeps_populated; eauto.
  - eapply extend_keeps_populated; eauto.
Qed.

Lemma extend_items_records (ds : list dict) :
  forall self,
    ReceiverList.extend_items (PDict <$> ds) self =
    (Ok tt,
     (self ++ ((fun d => PDict (canonical d)) <$> filter (fun d => populated d = true) ds))%list).
Proof.
  induction ds as [|d ds IH]; intros self.
  - simpl. unfold ret. rewrite app_nil_r. reflexivity.
  - rewrite fmap_cons. simpl. unfold bind. rewrite append_record.
    rewrite filter_cons. destruct (populated d) eqn:Hpop.
    + rewrite decide_True by reflexivity. rewrite IH.
      rewrite fmap_cons, <- app_assoc. reflexivity.
    + rewrite decide_False by discriminate. apply IH.
Qed.

(** A record with an email and no amount. *)
Definition email_only : dict := {["email" := PStr "a@b.c"]}.

(** C4, as stated, fails: a record whose amount is absent is stored all the
    same, because its email is there; [append] wants one of the two, not
    both. *)
Lemma append_email_only_is_stored :
  truthy (field email_only "amount") = false /\
  ReceiverList.append (PDict email_only) [] =
  (Ok PNone, [PDict (canonical email_only)]).
Proof. split; reflexivity. Qed.

(** C4, amended: a record handed to [append] is stored (as its canonical
    entry, at the end) exactly when at least one of its email and amount is
    non-empty; otherwise the list is left as it was, and in both cases
    [append] returns without raising. *)
Theorem append_stores_iff_populated (d : dict) (self : list pyval) :
  snd (ReceiverList.append (PDict d) self) =
    (if populated d then (self ++ [PDict (canonical d)])%list else self) /\
  fst (ReceiverList.append (PDict d) self) =
    Ok (if populated d then PNone else PBool false).
Proof. rewrite append_record. destruct (populated d); split; reflexivity. Qed.

(** C5: a record with neither email nor amount leaves the list (and so its
    length) unchanged and raises nothing; a record with at least one of them
    adds exactly one entry, the canonical one, whose [primary] is the string
    "false" when the record has none; [extend] runs [append] on the items
    one after the other, so the surviving entries keep their relative
    order. *)
Theorem append_extend_behaviour :
  (forall (d : dict) (self : list pyval),
     populated d = false ->
     ReceiverList.append (PDict d) self = (Ok (PBool false), self) /\
     length (snd (ReceiverList.append (PDict d) self)) = length self) /\
  (forall (d : dict) (self : list pyval),
     populated d = true ->
     ReceiverList.append (PDict d) self =
       (Ok PNone, (self ++ [PDict (canonical d)])%list) /\
     length (snd (ReceiverList.append (PDict d) self)) = S (length self) /\
     (d !! "primary" = None ->
      canonical d !! "primary" = Some (PStr "false"))) /\
  (forall (obj : pyval) (rest self : list pyval),
     ReceiverList.extend (PList (obj :: rest)) self =
     match ReceiverList.append obj self with
     | (Ok _, self') => ReceiverList.extend (PList rest) self'
     | (Raise e, self') => (Raise e, self')
     end) /\
  (forall (ds : list dict) (self : list pyval),
     ReceiverList.extend (PList (PDict <$> ds)) self =
     (Ok tt,
      (self ++ ((fun d => PDict (canonical d)) <$>
                filter (fun d => populated d = true) ds))%list)).
Proof.
  split; [|split; [|split]].
  - intros d self Hpop. rewrite append_record, Hpop. split; reflexivity.
  - intros d self Hpop. rewrite append_record, Hpop. split; [reflexivity|].
    split.
    + simpl. rewrite length_app. simpl. lia.
    + intros Hprimary. unfold canonical.
      rewrite lookup_insert_ne by discriminate.
      rewrite lookup_insert_ne by discriminate.
      rewrite lookup_insert_eq, Hprimary. reflexivity.
  - intros obj rest self. unfold ReceiverList.extend, bind, lift. simpl.
    unfold bind. destruct (ReceiverList.append obj self) as [[r|e] self'];
      reflexivity.
  - intros ds self. unfold ReceiverList.extend, bind, lift. simpl.
    apply extend_items_records.
Qed.

(** C10: the entry stored for a surviving record has exactly the keys
    [email], [amount] and [primary], whatever other keys the record has, and
    holds [None] under [email] or [amount] when the record lacks that key. *)
Theorem stored_entry_has_three_keys (d : dict) (self : list pyval) :
  populated d = true ->
  exists entry : dict,
    snd (ReceiverList.append (PDict d) self) = (self ++ [PDict entry])%list /\
    dom entry = ({["email"; "amount"; "primary"]} : gset string) /\
    entry !! "email" = Some (field d "email") /\
    entry !! "amount" = Some (field d "amount") /\
    (d !! "email" = None -> entry !! "email" = Some PNone) /\
    (d !! "amount" = None -> entry !! "amount" = Some PNone).
Proof.
  intros Hpop. exists (canonical d). rewrite append_record, Hpop.
  assert (Hemail : canonical d !! "email" = Some (field d "email")).
  { unfold canonical. apply lookup_insert_eq. }
  assert (Hamount : canonical d !! "amount" = Some (field d "amount")).
  { unfold canonical. rewrite lookup_insert_ne by discriminate.
    apply lookup_insert_eq. }
  split; [reflexivity|]. split; [|repeat split; try assumption].
  - unfold canonical. rewrite !dom_insert_L, dom_empty_L. set_solver.
  - intros Hnone. rewrite Hemail. unfold field. rewrite Hnone. reflexivity.
  - intros Hnone. rewrite Hamount. unfold field. rewrite Hnone. reflexivity.
Qed.

(** A record with an amount, no email, and a key that is not a receiver
    field. *)
Definition amount_only : dict :=
  <["amount" := PStr "10.00"]> {["note" := PStr "x"]}.

Lemma stored_entry_has_three_keys_witness :
  exists entry : dict,
    snd (ReceiverList.append (PDict amount_only) []) = [PDict entry] /\
    dom entry = ({["email"; "amount"; "primary"]} : gset string) /\
    entry !! "email" = Some (field amount_only "email") /\
    entry !! "amount" = Some (field amount_only "amount") /\
    (amount_only !! "email" = None -> entry !! "email" = Some PNone) /\
    (amount_only !! "amount" = None -> entry !! "amount" = Some PNone).
Proof. apply (stored_entry_has_three_keys amount_only []). reflexivity. Defined.

(** ** The service functions *)

Lemma snoc_neq {A : Type} (l : list A) (x : A) : (l ++ [x])%list <> l.
Proof.
  intros Heq. apply (f_equal length) in Heq.
  rewrite length_app in Heq. simpl in Heq. lia.
Qed.

(** The values [pay] requires, under their parameter names, in the order in
    which [pay] names them to [check_required]. *)
Definition required_values
    (action_type currency_code cancel_url return_url ipn_callback_url
     receivers : pyval) : list (string * pyval) :=
  [("cancel_url", cancel_url); ("return_url", return_url);
   ("currency_code", currency_code); ("action_type", action_type);
   ("receivers", receivers); ("ipn_callback_url", ipn_callback_url)].

(** The name of the first value that is empty. *)
Definition first_empty (values : list (string * pyval)) : option string :=
  fst <$> find (fun p : string * pyval => negb (truthy (snd p))) values.

(** The fields [pay] derives from its arguments. *)
Definition derived_fields
    (action_type currency_code cancel_url return_url receivers : pyval)
  : dict :=
  <["actionType" := action_type]>
    (<["receiverList" := PDict {["receiver" := receivers]}]>
       (<["currencyCode" := currency_code]>
          (<["cancelUrl" := cancel_url]>
             (<["returnUrl" := return_url]> ∅)))).

(** The mapping [pay] hands to [call], from the mapping [extra] it starts
    with and the receivers once normalized. *)
Definition pay_payload (extra : dict)
    (action_type currency_code cancel_url return_url ipn_callback_url
     receivers fees_payer : pyval) : dict :=
  set_nonempty_param
    (set_nonempty_param
       (py_update extra
          (derived_fields action_type currency_code cancel_url return_url
             receivers))
       "ipnNotificationUrl" ipn_callback_url)
    "feesPayer" fees_payer.

(** The receivers as [pay] normalizes them. *)
Definition normalized (receivers : pyval) : res (list pyval) :=
  match receivers with
  | PReceiverList l => Ok l
  | PList _ | PTuple _ => ReceiverList.new receivers
  | _ => ReceiverList.new (PList [receivers])
  end.

(** The world once [pay] has written the payload [d] into its [extra]: the
    caller's own mapping is not part of the world, the default one is. *)
Definition store_pay_extra (extra : option pyval) (d : dict) (w : world)
  : world :=
  match extra with
  | Some _ => w
  | None => snd (set_pay_extra d w)
  end.

(** The exception that [raise E('... %s ...' % v)] ends in: [E], unless
    the formatting of the message raises first. *)
Definition raised_after_format (v : pyval) (e : pyerr) : pyerr :=
  match py_format_one v with
  | Ok _ => e
  | Raise e' => e'
  end.

Lemma format_then_raise {A : Type} (v : pyval) (e : pyerr) (w : world) :
  (do_ lift (py_format_one v); @raise world A e) w =
  (Raise (raised_after_format v e), w).
Proof.
  unfold bind, lift, raise, raised_after_format.
  destruct (py_format_one v); reflexivity.
Qed.

Section ServiceProperties.

Variable is_valid_code : pyval -> bool.

Lemma call_net (c : client) (meth : string) (p : dict) (w : world) r w' :
  call c meth p w = (r, w') ->
  (p !! "endpoint" <> None /\ w' = w) \/
  (p !! "endpoint" = None /\
   r = client_call c
         {| service := "AdaptivePayments"; method := meth;
            endpoint := if in_sandbox (client_config c)
                        then SANDBOX_ENDPOINT else PRODUCTION_ENDPOINT;
            params := p |} /\
   net w' = (net w ++
     [{| service := "AdaptivePayments"; method := meth;
         endpoint := if in_sandbox (client_config c)
                     then SANDBOX_ENDPOINT else PRODUCTION_ENDPOINT;
         params := p |}])%list /\
   pay_extra w' = pay_extra w /\
   get_payment_url_extra w' = get_payment_url_extra w /\
   set_payment_options_extra w' = set_payment_options_extra w).
Proof.
  unfold call, raise, send. intros Hcall.
  destruct (p !! "endpoint") as [v|] eqn:Hep.
  - left. inversion Hcall; subst. split; [discriminate|reflexivity].
  - right. inversion Hcall; subst. simpl.
    destruct (in_sandbox (client_config c)); simpl;
      repeat (split; [reflexivity|]); reflexivity.
Qed.

(** What is known once [pay] has handed a request to the client. *)
Lemma pay_sent (c : client)
    (action_type currency_code cancel_url return_url ipn_callback_url
     receivers fees_payer : pyval) (extra : option pyval)
    (w : world) r w' (req : request) :
  pay is_valid_code c action_type currency_code cancel_url return_url
    ipn_callback_url receivers fees_payer extra w = (r, w') ->
  net w' = (net w ++ [req])%list ->
  exists (e : dict) (l : list pyval),
    match extra with Some v => v | None => PDict (pay_extra w) end = PDict e /\
    normalized receivers = Ok l /\
    first_empty (required_values action_type currency_code cancel_url
                   return_url ipn_callback_url receivers) = None /\
    is_valid_code currency_code = true /\
    py_in action_type SUPPORTED_PAY_ACTIONS = Ok true /\
    (truthy fees_payer = true ->
     py_in fees_payer SUPPORTED_FEE_PAYERS = Ok true) /\
    req = {| service := "AdaptivePayments"; method := "Pay";
             endpoint := if in_sandbox (client_config c)
                         then SANDBOX_ENDPOINT else PRODUCTION_ENDPOINT;
             params := pay_payload e action_type currency_code cancel_url
                         return_url ipn_callback_url (PReceiverList l)
                         fees_payer |} /\
    r = client_call c req.
Proof.
  intros Hpay Hnet.
  assert (Hstay : forall e : pyerr, (r, w') = (Raise e, w) -> False).
  { intros e He. inversion He; subst. exact (snoc_neq _ _ (eq_sym Hnet)). }
  unfold pay, extra_or_default in Hpay.
  unfold bind at 1 in Hpay.
  set (extra_obj := match extra with Some v => v | None => PDict (pay_extra w) end) in *.
  unfold bind at 1 in Hpay. unfold lift at 1 in Hpay.
  unfold first_empty, required_values.
  simpl in Hpay. simpl.
  destruct (truthy cancel_url); simpl in *; [|exfalso; eauto].
  destruct (truthy return_url); simpl in *; [|exfalso; eauto].
  destruct (truthy currency_code); simpl in *; [|exfalso; eauto].
  destruct (truthy action_type); simpl in *; [|exfalso; eauto].
  destruct (truthy receivers) eqn:Hrcv; simpl in *; [|exfalso; eauto].
  destruct (truthy ipn_callback_url) eqn:Hipn; simpl in *; [|exfalso; eauto].
  unfold bind at 1 in Hpay.
  destruct (is_valid_code currency_code) eqn:Hvalid;
    [simpl in Hpay
    |exfalso; cbn [negb] in Hpay; rewrite format_then_raise in Hpay; eauto].
  unfold ret at 1 in Hpay.
  unfold bind at 1 in Hpay. unfold lift at 1 in Hpay.
  destruct (py_in action_type SUPPORTED_PAY_ACTIONS) as [[|]|ea] eqn:Hact;
    simpl in Hpay; [| exfalso; unfold bind, raise in Hpay; eauto
                    | exfalso; eauto].
  unfold bind at 1 in Hpay. unfold ret at 1 in Hpay.
  unfold bind at 1 in Hpay.
  assert (Hfees : truthy fees_payer = true ->
                  py_in fees_payer SUPPORTED_FEE_PAYERS = Ok true /\ True).
  { intros Hfp. rewrite Hfp in Hpay. unfold bind at 1 in Hpay.
    unfold lift at 1 in Hpay.
    destruct (py_in fees_payer SUPPORTED_FEE_PAYERS) as [[|]|ef];
      [simpl in Hpay; auto
      |exfalso; cbn [negb] in Hpay; rewrite format_then_raise in Hpay; eauto
      |exfalso; simpl in Hpay; eauto]. }
  assert (Hrest :
    (do receivers0 <-
       lift (if is_ReceiverList receivers then Ok receivers
             else match ReceiverList.new
                          (if is_list_or_tuple receivers then receivers
                           else PList [receivers]) with
                  | Ok l => Ok (PReceiverList l)
                  | Raise e => Raise e
                  end);
     match extra_obj with
     | PDict d =>
         do_ match extra with
             | Some _ => ret ()
             | None =>
                 set_pay_extra
                   (pay_payload d action_type currency_code cancel_url
                      return_url ipn_callback_url receivers0 fees_payer)
             end;
         call c "Pay"
           (pay_payload d action_type currency_code cancel_url return_url
              ipn_callback_url receivers0 fees_payer)
     | _ => raise (AttributeError "update")
     end) w = (r, w')).
  { destruct (truthy fees_payer) eqn:Hfp.
    - unfold bind at 1 in Hpay. unfold lift at 1 in Hpay.
      destruct (py_in fees_payer SUPPORTED_FEE_PAYERS) as [[|]|ef];
        [simpl in Hpay; exact Hpay
        |exfalso; cbn [negb] in Hpay; rewrite format_then_raise in Hpay; eauto
        |exfalso; simpl in Hpay; eauto].
    - unfold ret at 1 in Hpay. exact Hpay. }
  clear Hpay. unfold bind at 1 in Hrest. unfold lift at 1 in Hrest.
  assert (Hnorm : exists l,
    normalized receivers = Ok l /\
    (if is_ReceiverList receivers then Ok receivers
     else match ReceiverList.new
                  (if is_list_or_tuple receivers then receivers
                   else PList [receivers]) with
          | Ok l => Ok (PReceiverList l)
          | Raise e => Raise e
          end) = Ok (PReceiverList l)).
  { clear Hrcv.
    destruct receivers as [|b|s|l0|l0|d0|l0|];
      cbn [is_ReceiverList is_list_or_tuple normalized] in *;
      try (exists l0; split; reflexivity);
      match goal with
      | |- context [ReceiverList.new ?x] =>
          destruct (ReceiverList.new x) as [l1|e1];
          [exists l1; split; reflexivity
          |exfalso; eapply Hstay; symmetry; exact Hrest]
      end. }
  destruct Hnorm as (l & Hnorm & Hl). rewrite Hl in Hrest.
  destruct extra_obj as [| | | | |d| |] eqn:Hobj;
    try (exfalso; unfold raise in Hrest; eauto; fail).
  exists d, l. split; [reflexivity|]. split; [exact Hnorm|].
  split; [reflexivity|]. split; [reflexivity|]. split; [reflexivity|].
  split; [intros Hfp; apply Hfees; exact Hfp|].
  unfold bind at 1 in Hrest.
  destruct extra as [v|].
  - unfold ret at 1 in Hrest.
    apply call_net in Hrest.
    destruct Hrest as [[_ Hw]|(_ & Hr & Hn & _)].
    + exfalso. subst w'. exact (snoc_neq _ _ (eq_sym Hnet)).
    + rewrite Hn in Hnet. apply app_inj_tail in Hnet.
      destruct Hnet as [_ Hreq]. subst req. split; [reflexivity|exact Hr].
  - unfold set_pay_extra at 1 in Hrest.
    apply call_net in Hrest.
    destruct Hrest as [[_ Hw]|(_ & Hr & Hn & _)].
    + exfalso. subst w'. simpl in Hnet. exact (snoc_neq _ _ (eq_sym Hnet)).
    + simpl in Hn. rewrite Hn in Hnet. apply app_inj_tail in Hnet.
      destruct Hnet as [_ Hreq]. subst req. split; [reflexivity|exact Hr].
Qed.

Lemma check_required_pay
    (action_type currency_code cancel_url return_url ipn_callback_url
     receivers fees_payer extra_obj : pyval) :
  check_required
    [("client", PClient); ("action_type", action_type);
     ("currency_code", currency_code); ("cancel_url", cancel_url);
     ("return_url", return_url); ("ipn_callback_url", ipn_callback_url);
     ("receivers", receivers); ("fees_payer", fees_payer);
     ("extra", extra_obj)] PAY_REQUIRED =
  match first_empty (required_values action_type currency_code cancel_url
                       return_url ipn_callback_url receivers) with
  | Some name => Raise (MissingRequiredField name)
  | None => Ok tt
  end.
Proof.
  unfold first_empty, required_values. simpl.
  destruct (truthy cancel_url), (truthy return_url), (truthy currency_code),
    (truthy action_type), (truthy receivers), (truthy ipn_callback_url);
    reflexivity.
Qed.

Lemma pay_unfold (c : client)
    (action_type currency_code cancel_url return_url ipn_callback_url
     receivers fees_payer : pyval) (extra : option pyval) (w : world) :
  pay is_valid_code c action_type currency_code cancel_url return_url
    ipn_callback_url receivers fees_payer extra w =
  match first_empty (required_values action_type currency_code cancel_url
                       return_url ipn_callback_url receivers) with
  | Some name => (Raise (MissingRequiredField name), w)
  | None =>
      if negb (is_valid_code currency_code)
      then
        (Raise (raised_after_format currency_code
                  (ValueError (CurrencyCodeNotSupported currency_code))), w)
      else
        match py_in action_type SUPPORTED_PAY_ACTIONS with
        | Raise e => (Raise e, w)
        | Ok false =>
            (Raise (ValueError (PaymentActionNotSupported action_type)), w)
        | Ok true =>
            match (if truthy fees_payer
                   then py_in fees_payer SUPPORTED_FEE_PAYERS
                   else Ok true) with
            | Raise e => (Raise e, w)
            | Ok false =>
                (Raise (raised_after_format fees_payer
                          (ValueError (FeesPayerNotSupported fees_payer))), w)
            | Ok true =>
                match normalized receivers with
                | Raise e => (Raise e, w)
                | Ok l =>
                    match (match extra with
                           | Some v => v
                           | None => PDict (pay_extra w)
                           end) with
                    | PDict e =>
                        let d :=
                          pay_payload e action_type currency_code cancel_url
                            return_url ipn_callback_url (PReceiverList l)
                            fees_payer in
                        call c "Pay" d (store_pay_extra extra d w)
                    | _ => (Raise (AttributeError "update"), w)
                    end
                end
            end
        end
  end.
Proof.
  unfold pay, extra_or_default, bind, lift, ret, raise. cbv beta iota zeta.
  rewrite check_required_pay.
  destruct (first_empty _) as [name|]; [reflexivity|].
  destruct (is_valid_code currency_code); simpl negb; cbv beta iota;
    [|unfold raised_after_format; destruct (py_format_one currency_code);
      reflexivity].
  destruct (py_in action_type SUPPORTED_PAY_ACTIONS) as [[|]|ea];
    simpl negb; cbv beta iota; [|reflexivity|reflexivity].
  assert (Hnorm :
    (if is_ReceiverList receivers then Ok receivers
     else match ReceiverList.new
                  (if is_list_or_tuple receivers then receivers
                   else PList [receivers]) with
          | Ok l => Ok (PReceiverList l)
          | Raise e => Raise e
          end) =
    match normalized receivers with
    | Ok l => Ok (PReceiverList l)
    | Raise e => Raise e
    end).
  { destruct receivers; reflexivity. }
  rewrite Hnorm. clear Hnorm.
  destruct (truthy fees_payer) eqn:Hfp; cbv beta iota.
  - destruct (py_in fees_payer SUPPORTED_FEE_PAYERS) as [[|]|ef];
      simpl negb; cbv beta iota;
      [|unfold raised_after_format; destruct (py_format_one fees_payer);
        reflexivity
       |reflexivity].
    destruct (normalized receivers) as [l|en]; [|reflexivity].
    destruct extra as [v|]; [destruct v|]; reflexivity.
  - destruct (normalized receivers) as [l|en]; [|reflexivity].
    destruct extra as [v|]; [destruct v|]; reflexivity.
Qed.



Lemma pay_payload_receiverList (e : dict)
    (action_type currency_code cancel_url return_url ipn_callback_url
     receivers fees_payer : pyval) :
  pay_payload e action_type currency_code cancel_url return_url
    ipn_callback_url receivers fees_payer !! "receiverList" =
  Some (PDict {["receiver" := receivers]}).
Proof.
  unfold pay_payload, set_nonempty_param, py_update, derived_fields.
  destruct (truthy fees_payer), (truthy ipn_callback_url);
    repeat (rewrite lookup_insert_ne by discriminate);
    apply lookup_union_Some_l;
    rewrite lookup_insert_ne by discriminate; apply lookup_insert_eq.
Qed.

Lemma normalized_populated (receivers : pyval) (l : list pyval) :
  (forall l0, receivers = PReceiverList l0 -> built l0) ->
  normalized receivers = Ok l ->
  Forall entry_populated l.
Proof.
  intros Hbuilt Hnorm.
  destruct receivers; cbn [normalized] in Hnorm;
    try (eapply new_populated; exact Hnorm).
  inversion Hnorm; subst. apply built_populated, Hbuilt. reflexivity.
Qed.

(** X23: as long as a [ReceiverList] has only gone through its
    constructor, [append] and [extend], every entry it holds is a record
    with at least one of email and amount non-empty; and when [pay] is
    given a record, a list or tuple, or such a [ReceiverList], the
    [receiver] field of the request it sends holds only such entries. *)
Theorem receivers_sent_are_populated :
  (forall self : list pyval, built self -> Forall entry_populated self) /\
  (forall (c : client)
     (action_type currency_code cancel_url return_url ipn_callback_url
      receivers fees_payer : pyval) (extra : option pyval)
     (w : world) r w' (req : request),
     (forall l0, receivers = PReceiverList l0 -> built l0) ->
     pay is_valid_code c action_type currency_code cancel_url return_url
       ipn_callback_url receivers fees_payer extra w = (r, w') ->
     net w' = (net w ++ [req])%list ->
     exists l : list pyval,
       params req !! "receiverList" =
         Some (PDict {["receiver" := PReceiverList l]}) /\
       Forall entry_populated l).
Proof.
  split; [exact built_populated|].
  intros c action_type currency_code cancel_url return_url ipn_callback_url
    receivers fees_payer extra w r w' req Hbuilt Hpay Hnet.
  destruct (pay_sent _ _ _ _ _ _ _ _ _ _ _ _ _ Hpay Hnet)
    as (e & l & _ & Hnorm & _ & _ & _ & _ & Hreq & _).
  exists l. split.
  - subst req. simpl. apply pay_payload_receiverList.
  - eapply normalized_populated; eauto.
Qed.

(** C8, amended: for every invocation of [call] whose [params] have no
    field named [endpoint], exactly one request goes to the client: to
    "https://svcs.sandbox.paypal.com" when the client is in the sandbox
    and to "https://svcs.paypal.com" when it is not, with the method and
    the params as they were given; what the client answers is the
    result. *)
Theorem call_forwards (c : client) (meth : string) (p : dict) (w : world) :
  p !! "endpoint" = None ->
  exists (req : request) (w' : world),
    call c meth p w = (client_call c req, w') /\
    net w' = (net w ++ [req])%list /\
    service req = "AdaptivePayments" /\
    method req = meth /\
    params req = p /\
    (in_sandbox (client_config c) = true ->
     endpoint req = "https://svcs.sandbox.paypal.com") /\
    (in_sandbox (client_config c) = false ->
     endpoint req = "https://svcs.paypal.com").
Proof.
  intros Hfree. unfold call. rewrite Hfree. unfold send.
  eexists. eexists. split; [reflexivity|]. simpl.
  repeat (split; [reflexivity|]).
  split; intros Hflag; rewrite Hflag; reflexivity.
Qed.

Lemma append_empty_r (s : string) : s +:+ "" = s.
Proof.
  induction s as [|a s IH]; [reflexivity|].
  change (String a (s +:+ "") = String a s). f_equal. exact IH.
Qed.

(** C7: [generate_pay_url] is a function of the client and its two
    arguments alone (it takes no world and hands nothing to the client's
    [call]): the pay key is put at the end of the standard path, or of the
    embedded one when [embedded] is true, and the result is what the
    client's [get_paypal_url] makes of that path. *)
Theorem generate_pay_url_paths (c : client) (pay_key : string) :
  generate_pay_url c pay_key false =
    get_paypal_url c ("/cgi-bin/webscr?cmd=_ap-payment&paykey=" +:+ pay_key) /\
  generate_pay_url c pay_key true =
    get_paypal_url c ("/webapps/adaptivepayment/flow/pay?paykey=" +:+ pay_key).
Proof.
  unfold generate_pay_url. simpl. rewrite append_empty_r. split; reflexivity.
Qed.

(** C1: the code does not do what the claim says.  [get_payment_url]
    passes all its local names to [pay] by keyword, [embedded] among them,
    which [pay] does not take: every call raises a [TypeError] there,
    before [pay] does anything, and never returns [None] or a URL. *)
Theorem get_payment_url_raises (c : client)
    (action_type currency_code cancel_url return_url ipn_callback_url
     receivers fees_payer : pyval) (extra : option pyval) (embedded : bool)
    (w : world) :
  get_payment_url is_valid_code c action_type currency_code cancel_url
    return_url ipn_callback_url receivers fees_payer extra embedded w =
  (Raise (TypeError "pay() got an unexpected keyword argument 'embedded'"),
   w).
Proof. reflexivity. Qed.

End ServiceProperties.

(** ** Concrete runs *)

(** A client whose [call] always answers with success and a pay key. *)
Definition demo_client (sandbox : bool) : client :=
  {| client_config := {| in_sandbox := sandbox |};
     get_paypal_url := fun path => "https://www.paypal.com" +:+ path;
     client_call := fun _ =>
       Ok {| success := true; fields := {["payKey" := "AP-1"]} |} |}.

(** A currency table with one code. *)
Definition only_usd (code : pyval) : bool :=
  match code with
  | PStr "USD" => true
  | _ => false
  end.

Definition demo_receiver : dict :=
  <["email" := PStr "a@b.c"]> {["amount" := PStr "10.00"]}.

(** [pay(client, 'PAY', 'USD', ..., receivers=[demo_receiver],
    fees_payer='SENDER')], with [extra] left to its default, in a fresh
    interpreter. *)
Definition first_pay : res response * world :=
  pay only_usd (demo_client true) (PStr "PAY") (PStr "USD")
    (PStr "http://shop/cancel") (PStr "http://shop/return")
    (PStr "http://shop/ipn") (PList [PDict demo_receiver])
    (PStr "SENDER") None initial_world.

(** The same call again, now without a fees payer. *)
Definition second_pay : res response * world :=
  pay only_usd (demo_client true) (PStr "PAY") (PStr "USD")
    (PStr "http://shop/cancel") (PStr "http://shop/return")
    (PStr "http://shop/ipn") (PList [PDict demo_receiver])
    PNone None (snd first_pay).

Definition first_set_payment_options : res response * world :=
  set_payment_options (demo_client true) (PStr "AP-1")
    (PDict {["description" := PStr "order 1"]})
    (PDict {["businessName" := PStr "Shop"]}) PNone PNone PNone None
    initial_world.

Definition second_set_payment_options : res response * world :=
  set_payment_options (demo_client true) (PStr "AP-2")
    (PDict {["description" := PStr "order 2"]})
    PNone PNone PNone PNone None (snd first_set_payment_options).

(** C3: the code does not do what the claim says.  The default [extra] of
    [pay] is one mapping for all calls and [pay] writes into it: a second
    call that leaves [extra] out and names no fees payer still sends the
    [feesPayer] of the first.  [set_payment_options] has the same default
    and sends the [displayOptions] of an earlier call. *)
Theorem pay_default_extra_is_shared :
  (exists req1 req2 : request,
     net (snd second_pay) = [req1; req2] /\
     params req1 !! "feesPayer" = Some (PStr "SENDER") /\
     params req2 !! "feesPayer" = Some (PStr "SENDER")) /\
  (exists req1 req2 : request,
     net (snd second_set_payment_options) = [req1; req2] /\
     params req2 !! "payKey" = Some (PStr "AP-2") /\
     params req2 !! "displayOptions" =
       Some (PDict {["businessName" := PStr "Shop"]})).
Proof.
  split; eexists; eexists; (split; [vm_compute; reflexivity|]);
    split; vm_compute; reflexivity.
Qed.

(** C8, as stated, fails for params that have a field named [endpoint]:
    the keyword is then given twice in the call to the client, which raises
    before anything is forwarded. *)
Lemma call_with_endpoint_field_raises :
  call (demo_client true) "Pay" {["endpoint" := PStr "https://example.org"]}
    initial_world =
  (Raise (TypeError "got multiple values for keyword argument 'endpoint'"),
   initial_world).
Proof. reflexivity. Qed.

Lemma call_forwards_witness :
  exists (req : request) (w' : world),
    call (demo_client true) "Pay" {["payKey" := PStr "AP-1"]} initial_world =
      (client_call (demo_client true) req, w') /\
    net w' = (net initial_world ++ [req])%list /\
    service req = "AdaptivePayments" /\
    method req = "Pay" /\
    params req = {["payKey" := PStr "AP-1"]} /\
    (in_sandbox (client_config (demo_client true)) = true ->
     endpoint req = "https://svcs.sandbox.paypal.com") /\
    (in_sandbox (client_config (demo_client true)) = false ->
     endpoint req = "https://svcs.paypal.com").
Proof.
  apply (call_forwards (demo_client true) "Pay" {["payKey" := PStr "AP-1"]}
           initial_world).
  reflexivity.
Defined.

Lemma append_extend_behaviour_witness :
  ReceiverList.append (PDict {["primary" := PStr "true"]}) [PDict demo_receiver]
    = (Ok (PBool false), [PDict demo_receiver]) /\
  ReceiverList.append (PDict email_only) [] =
    (Ok PNone, [PDict (canonical email_only)]) /\
  canonical email_only !! "primary" = Some (PStr "false") /\
  ReceiverList.extend (PList (PDict <$> [email_only; ∅; demo_receiver])) [] =
    (Ok tt, [PDict (canonical email_only); PDict (canonical demo_receiver)]).
Proof.
  destruct append_extend_behaviour as (Hdrop & Hkeep & _ & Hextend).
  split; [|split; [|split]].
  - apply (Hdrop {["primary" := PStr "true"]} [PDict demo_receiver]).
    reflexivity.
  - apply (Hkeep email_only []). reflexivity.
  - apply (Hkeep email_only []); reflexivity.
  - exact (Hextend [email_only; ∅; demo_receiver] []).
Defined.




(** A caller's [extra] with a field of its own, a field that [pay] derives
    and a fees payer. *)
Definition demo_extra : dict :=
  <["memo" := PStr "order 7"]>
    (<["currencyCode" := PStr "SEK"]> {["feesPayer" := PStr "EACHRECEIVER"]}).

(** [pay] with [demo_extra], an already built receiver list and no fees
    payer. *)
Definition pay_with_extra : res response * world :=
  pay only_usd (demo_client false) (PStr "PAY") (PStr "USD")
    (PStr "http://shop/cancel") (PStr "http://shop/return")
    (PStr "http://shop/ipn") (PReceiverList [PDict (canonical demo_receiver)])
    PNone (Some (PDict demo_extra)) initial_world.

(** The request that call sends. *)
Definition pay_with_extra_request : request :=
  {| service := "AdaptivePayments"; method := "Pay";
     endpoint := PRODUCTION_ENDPOINT;
     params :=
       pay_payload demo_extra (PStr "PAY") (PStr "USD")
         (PStr "http://shop/cancel") (PStr "http://shop/return")
         (PStr "http://shop/ipn")
         (PReceiverList [PDict (canonical demo_receiver)]) PNone |}.


Lemma receivers_sent_are_populated_witness :
  exists l : list pyval,
    params pay_with_extra_request !! "receiverList" =
      Some (PDict {["receiver" := PReceiverList l]}) /\
    Forall entry_populated l.
Proof.
  apply (proj2 (receivers_sent_are_populated only_usd) (demo_client false)
           (PStr "PAY") (PStr "USD") (PStr "http://shop/cancel")
           (PStr "http://shop/return") (PStr "http://shop/ipn")
           (PReceiverList [PDict (canonical demo_receiver)]) PNone
           (Some (PDict demo_extra)) initial_world
           (fst pay_with_extra) (snd pay_with_extra) pay_with_extra_request).
  - intros l0 Hl0. inversion Hl0; subst l0.
    apply (built_new (PList [PDict demo_receiver])). reflexivity.
  - vm_compute. reflexivity.
  - vm_compute. reflexivity.
Defined.

(** A record with neither email nor amount. *)
Definition note_only : dict := {["note" := PStr "no receiver"]}.

(** [pay] with the list that [ReceiverList([demo_receiver])] holds after
    [insert(0, note_only)]. *)
Definition pay_after_insert : res response * world :=
  pay only_usd (demo_client true) (PStr "PAY") (PStr "USD")
    (PStr "http://shop/cancel") (PStr "http://shop/return")
    (PStr "http://shop/ipn")
    (PReceiverList [PDict note_only; PDict (canonical demo_receiver)])
    PNone (Some (PDict ∅)) initial_world.

(** C6: the code does not do what the claim says.  The class overrides
    [append] and [extend] only; [insert], which it inherits from [list],
    stores a record with neither email nor amount as it is, and [pay] sends
    a [ReceiverList] without looking at its entries, so the record is in
    the [receiver] field of the request. *)
Theorem pay_sends_record_stored_by_insert :
  ReceiverList.new (PList [PDict demo_receiver]) =
    Ok [PDict (canonical demo_receiver)] /\
  ReceiverList.insert 0 (PDict note_only) [PDict (canonical demo_receiver)] =
    (Ok PNone, [PDict note_only; PDict (canonical demo_receiver)]) /\
  populated note_only = false /\
  exists req : request,
    net (snd pay_after_insert) = [req] /\
    params req !! "receiverList" =
    Some (PDict {["receiver" :=
                    PReceiverList [PDict note_only;
                                   PDict (canonical demo_receiver)]]}).
Proof.
  split; [reflexivity|]. split; [reflexivity|]. split; [reflexivity|].
  eexists. split; vm_compute; reflexivity.
Qed.

(** * Further properties of the module *)

(** ** ReceiverList *)

(** A stored item in the three-field shape [append] gives it. *)
Definition canonical_entry (v : pyval) : Prop :=
  exists d : dict, v = PDict (canonical d) /\ populated d = true.

Lemma canonical_idempotent (d : dict) : canonical (canonical d) = canonical d.
Proof.
  unfold canonical at 1.
  rewrite canonical_field_email, canonical_field_amount.
  assert (Hprimary : canonical d !! "primary" =
                     Some (default (PStr "false") (d !! "primary"))).
  { unfold canonical. rewrite lookup_insert_ne by discriminate.
    rewrite lookup_insert_ne by discriminate. apply lookup_insert_eq. }
  rewrite Hprimary. reflexivity.
Qed.

Lemma append_suffix (obj : pyval) (self : list pyval) :
  exists suffix : list pyval,
    snd (ReceiverList.append obj self) = (self ++ suffix)%list /\
    length suffix <= 1 /\ Forall canonical_entry suffix.
Proof.
  destruct obj;
    try (exists []; cbv [ReceiverList.append bind lift py_get snd];
         rewrite app_nil_r; repeat split; [simpl; lia|constructor]).
  rewrite append_record. destruct (populated d) eqn:Hpop.
  - exists [PDict (canonical d)]. repeat split; [simpl; lia|].
    constructor; [|constructor]. exists d. split; [reflexivity|exact Hpop].
  - exists []. simpl. rewrite app_nil_r. repeat split; [simpl; lia|constructor].
Qed.

Lemma extend_items_suffix (items : list pyval) :
  forall self : list pyval,
    exists suffix : list pyval,
      snd (ReceiverList.extend_items items self) = (self ++ suffix)%list /\
      length suffix <= length items /\ Forall canonical_entry suffix.
Proof.
  induction items as [|obj rest IH]; intros self.
  - exists []. simpl. rewrite app_nil_r. repeat split; [simpl; lia|constructor].
  - simpl. unfold bind.
    destruct (append_suffix obj self) as (s1 & Hs1 & Hlen1 & Hcan1).
    destruct (ReceiverList.append obj self) as [[a|e] self1]; simpl in Hs1;
      subst self1.
    + destruct (IH (self ++ s1)%list) as (s2 & Hs2 & Hlen2 & Hcan2).
      exists (s1 ++ s2)%list. rewrite Hs2, app_assoc.
      repeat split; [rewrite length_app; simpl; lia|].
      apply Forall_app. split; assumption.
    + exists s1. simpl. repeat split; [lia|assumption].
Qed.

Lemma extend_suffix (iterable : pyval) (self : list pyval) :
  exists suffix : list pyval,
    snd (ReceiverList.extend iterable self) = (self ++ suffix)%list /\
    Forall canonical_entry suffix.
Proof.
  unfold ReceiverList.extend, bind, lift.
  destruct (py_iter iterable) as [items|e].
  - destruct (extend_items_suffix items self) as (s & Hs & _ & Hcan).
    exists s. split; assumption.
  - exists []. simpl. rewrite app_nil_r. split; [reflexivity|constructor].
Qed.

Lemma built_canonical (self : list pyval) :
  built self -> Forall canonical_entry self.
Proof.
  induction 1 as [iterable self Hnew
                 |obj self r self' _ IH Happ
                 |iterable self r self' _ IH Hext].
  - unfold ReceiverList.new, ReceiverList.init in Hnew.
    destruct (truthy iterable).
    + destruct (extend_suffix iterable []) as (s & Hs & Hcan).
      destruct (ReceiverList.extend iterable []) as [[u|e] self1];
        [|discriminate].
      inversion Hnew; subst. simpl in Hs. subst self. exact Hcan.
    + cbv in Hnew. inversion Hnew; subst. constructor.
  - destruct (append_suffix obj self) as (s & Hs & _ & Hcan).
    rewrite Happ in Hs. simpl in Hs. subst self'.
    apply Forall_app. split; assumption.
  - destruct (extend_suffix iterable self) as (s & Hs & Hcan).
    rewrite Hext in Hs. simpl in Hs. subst self'.
    apply Forall_app. split; assumption.
Qed.

Lemma extend_items_canonical (items : list pyval) :
  Forall canonical_entry items ->
  forall self : list pyval,
    ReceiverList.extend_items items self = (Ok tt, (self ++ items)%list).
Proof.
  induction 1 as [|v items (d & Hv & Hpop) _ IH]; intros self.
  - simpl. unfold ret. rewrite app_nil_r. reflexivity.
  - subst v. simpl. unfold bind. rewrite append_record.
    rewrite populated_canonical, Hpop, canonical_idempotent, IH.
    rewrite <- app_assoc. reflexivity.
Qed.

Definition is_record (v : pyval) : bool :=
  match v with
  | PDict _ => true
  | _ => false
  end.

Lemma extend_items_app (a b : list pyval) :
  forall self : list pyval,
    ReceiverList.extend_items (a ++ b) self =
    match ReceiverList.extend_items a self with
    | (Ok _, self') => ReceiverList.extend_items b self'
    | (Raise e, self') => (Raise e, self')
    end.
Proof.
  induction a as [|obj a IH]; intros self; [reflexivity|].
  simpl. unfold bind.
  destruct (ReceiverList.append obj self) as [[r|e] self1]; [apply IH|reflexivity].
Qed.

Lemma append_non_record (obj : pyval) (self : list pyval) :
  is_record obj = false ->
  ReceiverList.append obj self = (Raise (AttributeError "get"), self).
Proof. destruct obj; intros Hrec; try discriminate; reflexivity. Qed.

(** X1: an item that is not a mapping (None, a string, a list, ...) makes
    [append] raise AttributeError, for the [get] it lacks, and nothing is
    stored. *)
Theorem append_of_non_record_raises (obj : pyval) (self : list pyval) :
  is_record obj = false ->
  ReceiverList.append obj self = (Raise (AttributeError "get"), self).
Proof. apply append_non_record. Qed.

Lemma append_of_non_record_raises_witness :
  ReceiverList.append (PStr "a@b.c") [PDict (canonical demo_receiver)] =
  (Raise (AttributeError "get"), [PDict (canonical demo_receiver)]).
Proof.
  apply (append_of_non_record_raises (PStr "a@b.c")
           [PDict (canonical demo_receiver)]).
  reflexivity.
Defined.

(** X2: the constructor does not iterate over an iterable that is falsy:
    [ReceiverList(None)], like [ReceiverList([])], is an empty list and
    raises nothing. *)
Theorem new_of_falsy_is_empty (iterable : pyval) :
  truthy iterable = false -> ReceiverList.new iterable = Ok [].
Proof.
  intros Hfalsy. unfold ReceiverList.new, ReceiverList.init.
  rewrite Hfalsy. reflexivity.
Qed.

Lemma new_of_falsy_is_empty_witness : ReceiverList.new PNone = Ok [].
Proof. apply (new_of_falsy_is_empty PNone). reflexivity. Defined.

Lemma truthy_record (d : dict) : d <> ∅ -> truthy (PDict d) = true.
Proof.
  intros Hd. unfold truthy. rewrite bool_decide_eq_false_2 by exact Hd.
  reflexivity.
Qed.

(** X3: a single record handed to the constructor as it is, not inside a
    list, is iterated over key by key; the keys are strings, so the
    construction raises AttributeError whatever the record holds. *)
Theorem new_of_bare_record_raises (d : dict) :
  d <> ∅ -> ReceiverList.new (PDict d) = Raise (AttributeError "get").
Proof.
  intros Hd. unfold ReceiverList.new, ReceiverList.init.
  rewrite (truthy_record d Hd).
  unfold ReceiverList.extend, bind, lift. simpl py_iter. cbv iota beta.
  destruct (map_to_list d) as [|[k v] rest] eqn:Hlist.
  - exfalso. apply Hd. apply map_to_list_empty_iff. exact Hlist.
  - reflexivity.
Qed.

Lemma new_of_bare_record_raises_witness :
  ReceiverList.new (PDict demo_receiver) = Raise (AttributeError "get").
Proof. apply (new_of_bare_record_raises demo_receiver). discriminate. Defined.

(** X4: extending by the items of [a] followed by those of [b] is extending
    by [a] and then, unless that raised, by [b]. *)
Theorem extend_of_concatenation (a b self : list pyval) :
  ReceiverList.extend (PList (a ++ b)) self =
  match ReceiverList.extend (PList a) self with
  | (Ok _, self') => ReceiverList.extend (PList b) self'
  | (Raise e, self') => (Raise e, self')
  end.
Proof.
  unfold ReceiverList.extend, bind, lift. simpl py_iter. cbv iota beta.
  apply extend_items_app.
Qed.

(** X5: [append] and [extend] only ever add at the end: the entries stored
    before are still there, unchanged and in their order, also when the
    operation raises; [append] adds at most one entry and [extend] at most
    one entry per item of a list. *)
Theorem stored_entries_are_kept :
  (forall (obj : pyval) (self : list pyval),
     exists suffix : list pyval,
       snd (ReceiverList.append obj self) = (self ++ suffix)%list /\
       length suffix <= 1) /\
  (forall (iterable : pyval) (self : list pyval),
     exists suffix : list pyval,
       snd (ReceiverList.extend iterable self) = (self ++ suffix)%list) /\
  (forall (items self : list pyval),
     length (snd (ReceiverList.extend (PList items) self)) <=
     length self + length items).
Proof.
  split; [|split].
  - intros obj self. destruct (append_suffix obj self) as (s & Hs & Hlen & _).
    exists s. split; assumption.
  - intros iterable self. destruct (extend_suffix iterable self) as (s & Hs & _).
    exists s. exact Hs.
  - intros items self. unfold ReceiverList.extend, bind, lift. simpl py_iter.
    cbv iota beta.
    destruct (extend_items_suffix items self) as (s & Hs & Hlen & _).
    rewrite Hs, length_app. lia.
Qed.

Lemma extend_non_record
    (ds : list dict) (obj : pyval) (rest self : list pyval) :
  is_record obj = false ->
  ReceiverList.extend (PList ((PDict <$> ds) ++ obj :: rest)) self =
  (Raise (AttributeError "get"),
   (self ++ ((fun d => PDict (canonical d)) <$>
             filter (fun d => populated d = true) ds))%list).
Proof.
  intros Hobj. unfold ReceiverList.extend, bind, lift. simpl py_iter.
  cbv iota beta. rewrite extend_items_app, extend_items_records.
  simpl. unfold bind. rewrite append_non_record by exact Hobj. reflexivity.
Qed.

(** X6: [extend] stops at the first item that is not a mapping: it raises
    AttributeError there, the records before it have been stored (those with
    an email or an amount), and the items after it are not looked at. *)
Theorem extend_stops_at_non_record
    (ds : list dict) (obj : pyval) (rest self : list pyval) :
  is_record obj = false ->
  ReceiverList.extend (PList ((PDict <$> ds) ++ obj :: rest)) self =
  (Raise (AttributeError "get"),
   (self ++ ((fun d => PDict (canonical d)) <$>
             filter (fun d => populated d = true) ds))%list).
Proof. apply extend_non_record. Qed.

Lemma extend_stops_at_non_record_witness :
  ReceiverList.extend
    (PList ((PDict <$> [demo_receiver; ∅]) ++ PNone :: [PDict email_only])) [] =
  (Raise (AttributeError "get"), [PDict (canonical demo_receiver)]).
Proof.
  exact (extend_stops_at_non_record [demo_receiver; ∅] PNone
           [PDict email_only] [] eq_refl).
Defined.

(** X7: building a [ReceiverList] from the entries of one that the class's
    operations built gives the same entries back: stored entries are left
    as they are by a second normalization. *)
Theorem rebuild_is_identity (self : list pyval) :
  built self ->
  ReceiverList.new (PReceiverList self) = Ok self /\
  ReceiverList.new (PList self) = Ok self.
Proof.
  intros Hbuilt. apply built_canonical in Hbuilt.
  assert (Hnew : forall iterable,
            py_iter iterable = Ok self ->
            truthy iterable = negb (Nat.eqb (length self) 0) ->
            ReceiverList.new iterable = Ok self).
  { intros iterable Hiter Htruthy.
    unfold ReceiverList.new, ReceiverList.init. rewrite Htruthy.
    destruct self as [|v self']; [reflexivity|]. simpl negb. cbv iota.
    unfold ReceiverList.extend, bind, lift. rewrite Hiter.
    rewrite (extend_items_canonical _ Hbuilt). reflexivity. }
  split; apply Hnew; reflexivity.
Qed.

Lemma rebuild_is_identity_witness :
  ReceiverList.new (PReceiverList [PDict (canonical demo_receiver)]) =
    Ok [PDict (canonical demo_receiver)] /\
  ReceiverList.new (PList [PDict (canonical demo_receiver)]) =
    Ok [PDict (canonical demo_receiver)].
Proof.
  apply (rebuild_is_identity [PDict (canonical demo_receiver)]).
  apply (built_new (PList [PDict demo_receiver])). reflexivity.
Defined.

(** ** pay, step by step *)

Definition store_set_payment_options_extra (extra : option pyval) (d : dict)
    (w : world) : world :=
  match extra with
  | Some _ => w
  | None => snd (set_set_payment_options_extra d w)
  end.

(** The mapping [set_payment_options] hands to [call]. *)
Definition set_payment_options_payload (extra : dict)
    (pay_key receiver_options display_options sender_options
     shipping_address_id initiating_entity : pyval) : dict :=
  set_nonempty_param
    (set_nonempty_param
       (set_nonempty_param
          (set_nonempty_param
             (set_nonempty_param (<["payKey" := pay_key]> extra)
                "initiatingEntity" initiating_entity)
             "displayOptions" display_options)
          "shippingAddressId" shipping_address_id)
       "senderOptions" sender_options)
    "receiverOptions" receiver_options.

Lemma pay_payload_other (e : dict)
    (action_type currency_code cancel_url return_url ipn_callback_url
     receivers fees_payer : pyval) (key : string) :
  key ∉ ["actionType"; "receiverList"; "currencyCode"; "cancelUrl";
         "returnUrl"; "ipnNotificationUrl"; "feesPayer"] ->
  pay_payload e action_type currency_code cancel_url return_url
    ipn_callback_url receivers fees_payer !! key = e !! key.
Proof.
  intros Hkey.
  assert (Hne : forall k : string,
            k ∈ ["actionType"; "receiverList"; "currencyCode";
                 "cancelUrl"; "returnUrl"; "ipnNotificationUrl";
                 "feesPayer"] -> k <> key).
  { intros k Hk Heq. subst k. exact (Hkey Hk). }
  unfold pay_payload, set_nonempty_param, py_update, derived_fields.
  assert (Hbase :
    (<["actionType":=action_type]>
       (<["receiverList":=PDict {["receiver" := receivers]}]>
          (<["currencyCode":=currency_code]>
             (<["cancelUrl":=cancel_url]>
                (<["returnUrl":=return_url]> ∅)))) ∪ e) !! key
    = e !! key).
  { rewrite lookup_union_r; [reflexivity|].
    rewrite !lookup_insert_ne by (apply Hne; set_solver).
    apply lookup_empty. }
  destruct (truthy fees_payer), (truthy ipn_callback_url);
    rewrite ?lookup_insert_ne by (apply Hne; set_solver);
    exact Hbase.
Qed.

Lemma pay_payload_endpoint (e : dict)
    (action_type currency_code cancel_url return_url ipn_callback_url
     receivers fees_payer : pyval) :
  pay_payload e action_type currency_code cancel_url return_url
    ipn_callback_url receivers fees_payer !! "endpoint" = e !! "endpoint".
Proof.
  apply pay_payload_other. intros Hin.
  repeat (apply elem_of_cons in Hin as [Heq|Hin]; [discriminate|]).
  inversion Hin.
Qed.

Lemma net_store_pay_extra (extra : option pyval) (d : dict) (w : world) :
  net (store_pay_extra extra d w) = net w /\
  get_payment_url_extra (store_pay_extra extra d w) =
    get_payment_url_extra w /\
  set_payment_options_extra (store_pay_extra extra d w) =
    set_payment_options_extra w /\
  pay_extra (store_pay_extra extra d w) =
    match extra with
    | Some _ => pay_extra w
    | None => d
    end.
Proof. destruct extra; repeat split; reflexivity. Qed.

Section Runs.

Variable is_valid_code : pyval -> bool.

Lemma set_payment_options_unfold (c : client)
    (pay_key receiver_options display_options sender_options
     shipping_address_id initiating_entity : pyval) (extra : option pyval)
    (w : world) :
  set_payment_options c pay_key receiver_options display_options
    sender_options shipping_address_id initiating_entity extra w =
  match (match extra with
         | Some v => v
         | None => PDict (set_payment_options_extra w)
         end) with
  | PDict e =>
      let d :=
        set_payment_options_payload e pay_key receiver_options display_options
          sender_options shipping_address_id initiating_entity in
      call c "SetPaymentOptions" d (store_set_payment_options_extra extra d w)
  | _ => (Raise (TypeError "object does not support item assignment"), w)
  end.
Proof.
  unfold set_payment_options, extra_or_default. unfold bind at 1.
  destruct extra as [v|].
  - destruct v; reflexivity.
  - reflexivity.
Qed.

Lemma call_raises_or_sends (c : client) (meth : string) (p : dict) (w : world) :
  (exists v, p !! "endpoint" = Some v /\
     call c meth p w =
     (Raise (TypeError "got multiple values for keyword argument 'endpoint'"),
      w)) \/
  (p !! "endpoint" = None /\
   call c meth p w =
   send c {| service := "AdaptivePayments"; method := meth;
             endpoint := if in_sandbox (client_config c)
                         then SANDBOX_ENDPOINT else PRODUCTION_ENDPOINT;
             params := p |} w).
Proof.
  unfold call. destruct (p !! "endpoint") as [v|].
  - left. exists v. split; reflexivity.
  - right. split; [reflexivity|].
    destruct (in_sandbox (client_config c)); reflexivity.
Qed.

(** Either [pay] raises and nothing has changed, or it has passed its
    checks and gone on to [call] with the payload written into [extra]. *)
Lemma pay_outcome (c : client)
    (action_type currency_code cancel_url return_url ipn_callback_url
     receivers fees_payer : pyval) (extra : option pyval) (w : world) :
  (exists err : pyerr,
     pay is_valid_code c action_type currency_code cancel_url return_url
       ipn_callback_url receivers fees_payer extra w = (Raise err, w)) \/
  (exists (e : dict) (l : list pyval),
     match extra with Some v => v | None => PDict (pay_extra w) end = PDict e /\
     normalized receivers = Ok l /\
     pay is_valid_code c action_type currency_code cancel_url return_url
       ipn_callback_url receivers fees_payer extra w =
     call c "Pay"
       (pay_payload e action_type currency_code cancel_url return_url
          ipn_callback_url (PReceiverList l) fees_payer)
       (store_pay_extra extra
          (pay_payload e action_type currency_code cancel_url return_url
             ipn_callback_url (PReceiverList l) fees_payer) w)).
Proof.
  rewrite pay_unfold.
  destruct (first_empty _) as [name|]; [left; eauto|].
  destruct (is_valid_code currency_code); simpl negb; cbv iota;
    [|left; eauto].
  destruct (py_in action_type SUPPORTED_PAY_ACTIONS) as [[|]|ea];
    [|left; eauto|left; eauto].
  destruct (if truthy fees_payer
            then py_in fees_payer SUPPORTED_FEE_PAYERS else Ok true)
    as [[|]|ef]; [|left; eauto|left; eauto].
  destruct (normalized receivers) as [l|en]; [|left; eauto].
  destruct (match extra with Some v => v | None => PDict (pay_extra w) end)
    as [| | | | |e| |] eqn:Hextra; try (left; eauto; fail).
  right. exists e, l. repeat split; reflexivity.
Qed.

End Runs.

(** ** pay and the client *)

(** The four checks of [pay] pass. *)
Definition passes_checks (is_valid_code : pyval -> bool)
    (action_type currency_code cancel_url return_url ipn_callback_url
     receivers fees_payer : pyval) : Prop :=
  first_empty (required_values action_type currency_code cancel_url
                 return_url ipn_callback_url receivers) = None /\
  is_valid_code currency_code = true /\
  py_in action_type SUPPORTED_PAY_ACTIONS = Ok true /\
  (truthy fees_payer = true ->
   py_in fees_payer SUPPORTED_FEE_PAYERS = Ok true).

Section PayRuns.

Variable is_valid_code : pyval -> bool.

Lemma pay_after_checks (c : client)
    (action_type currency_code cancel_url return_url ipn_callback_url
     receivers fees_payer : pyval) (extra : option pyval) (w : world) :
  passes_checks is_valid_code action_type currency_code cancel_url return_url
    ipn_callback_url receivers fees_payer ->
  pay is_valid_code c action_type currency_code cancel_url return_url
    ipn_callback_url receivers fees_payer extra w =
  match normalized receivers with
  | Raise e => (Raise e, w)
  | Ok l =>
      match (match extra with
             | Some v => v
             | None => PDict (pay_extra w)
             end) with
      | PDict e =>
          let d :=
            pay_payload e action_type currency_code cancel_url
              return_url ipn_callback_url (PReceiverList l) fees_payer in
          call c "Pay" d (store_pay_extra extra d w)
      | _ => (Raise (AttributeError "update"), w)
      end
  end.
Proof.
  intros (Hfirst & Hvalid & Haction & Hfees).
  rewrite pay_unfold, Hfirst, Hvalid, Haction. simpl negb. cbv iota.
  destruct (truthy fees_payer); [rewrite Hfees by reflexivity|]; reflexivity.
Qed.

Lemma pay_dispatched (c : client)
    (action_type currency_code cancel_url return_url ipn_callback_url
     receivers fees_payer : pyval) (extra : option pyval)
    (w : world) r w' (req : request) :
  pay is_valid_code c action_type currency_code cancel_url return_url
    ipn_callback_url receivers fees_payer extra w = (r, w') ->
  net w' = (net w ++ [req])%list ->
  exists (e : dict) (l : list pyval),
    match extra with Some v => v | None => PDict (pay_extra w) end = PDict e /\
    normalized receivers = Ok l /\
    params req = pay_payload e action_type currency_code cancel_url
                   return_url ipn_callback_url (PReceiverList l) fees_payer /\
    params req !! "endpoint" = None /\
    pay_extra w' = match extra with
                   | Some _ => pay_extra w
                   | None => params req
                   end.
Proof.
  intros Hpay Hnet.
  destruct (pay_outcome is_valid_code c action_type currency_code cancel_url
              return_url ipn_callback_url receivers fees_payer extra w)
    as [(err & Herr)|(e & l & He & Hnorm & Hcall)].
  - rewrite Herr in Hpay. inversion Hpay; subst.
    exfalso. exact (snoc_neq _ _ (eq_sym Hnet)).
  - rewrite Hcall in Hpay.
    set (d := pay_payload e action_type currency_code cancel_url return_url
                ipn_callback_url (PReceiverList l) fees_payer) in *.
    destruct (net_store_pay_extra extra d w) as (Hn & _ & _ & Hp).
    apply call_net in Hpay.
    destruct Hpay as [[_ Hw]|(Hfree & _ & Hsent & Hpe & _)].
    + subst w'. rewrite Hn in Hnet.
      exfalso. exact (snoc_neq _ _ (eq_sym Hnet)).
    + rewrite Hn in Hsent. rewrite Hsent in Hnet.
      apply app_inj_tail in Hnet. destruct Hnet as [_ Hreq]. subst req.
      exists e, l. simpl. repeat split; try assumption; try reflexivity.
      rewrite Hpe, Hp. destruct extra; reflexivity.
Qed.

(** X8: a call of [pay] that passes the four checks, with receivers that
    normalize and an [extra] mapping without a field named [endpoint],
    reaches the client exactly once, with method [Pay], and returns what the
    client returns or raises. *)
Theorem pay_reaches_client_once (c : client)
    (action_type currency_code cancel_url return_url ipn_callback_url
     receivers fees_payer : pyval) (extra : option pyval) (w : world)
    (e : dict) (l : list pyval) :
  passes_checks is_valid_code action_type currency_code cancel_url return_url
    ipn_callback_url receivers fees_payer ->
  normalized receivers = Ok l ->
  match extra with Some v => v | None => PDict (pay_extra w) end = PDict e ->
  e !! "endpoint" = None ->
  exists (req : request) (w' : world),
    pay is_valid_code c action_type currency_code cancel_url return_url
      ipn_callback_url receivers fees_payer extra w =
      (client_call c req, w') /\
    net w' = (net w ++ [req])%list /\
    service req = "AdaptivePayments" /\
    method req = "Pay" /\
    params req = pay_payload e action_type currency_code cancel_url
                   return_url ipn_callback_url (PReceiverList l) fees_payer.
Proof.
  intros Hchecks Hnorm Hextra Hfree.
  rewrite (pay_after_checks _ _ _ _ _ _ _ _ _ _ Hchecks), Hnorm, Hextra.
  cbv zeta.
  set (d := pay_payload e action_type currency_code cancel_url return_url
              ipn_callback_url (PReceiverList l) fees_payer).
  destruct (call_raises_or_sends c "Pay" d (store_pay_extra extra d w))
    as [(v & Hv & _)|(_ & Hsend)].
  - subst d. rewrite pay_payload_endpoint, Hfree in Hv. discriminate.
  - rewrite Hsend. unfold send. eexists. eexists.
    split; [reflexivity|]. simpl.
    destruct (net_store_pay_extra extra d w) as (Hn & _).
    rewrite Hn. repeat split; reflexivity.
Qed.

(** X9: one call of [pay] hands at most one request to the client, and
    when it does, it is a [Pay] request to the AdaptivePayments service. *)
Theorem pay_sends_at_most_one_request (c : client)
    (action_type currency_code cancel_url return_url ipn_callback_url
     receivers fees_payer : pyval) (extra : option pyval) (w : world) :
  let w' := snd (pay is_valid_code c action_type currency_code cancel_url
                   return_url ipn_callback_url receivers fees_payer extra w) in
  net w' = net w \/
  exists req : request,
    net w' = (net w ++ [req])%list /\
    service req = "AdaptivePayments" /\ method req = "Pay".
Proof.
  cbv zeta.
  destruct (pay_outcome is_valid_code c action_type currency_code cancel_url
              return_url ipn_callback_url receivers fees_payer extra w)
    as [(err & Herr)|(e & l & _ & _ & Hcall)].
  - left. rewrite Herr. reflexivity.
  - rewrite Hcall.
    set (d := pay_payload e action_type currency_code cancel_url return_url
                ipn_callback_url (PReceiverList l) fees_payer).
    destruct (net_store_pay_extra extra d w) as (Hn & _).
    destruct (call_raises_or_sends c "Pay" d (store_pay_extra extra d w))
      as [(v & _ & Hraise)|(_ & Hsend)].
    + left. rewrite Hraise. simpl. exact Hn.
    + right. rewrite Hsend. unfold send. simpl. rewrite Hn.
      eexists. repeat split; reflexivity.
Qed.

(** X10: [pay] never writes to the default mappings of [get_payment_url]
    and [set_payment_options], and when the caller passes an [extra] of its
    own it does not write to the default mapping of [pay] either. *)
Theorem pay_keeps_other_defaults (c : client)
    (action_type currency_code cancel_url return_url ipn_callback_url
     receivers fees_payer : pyval) (extra : option pyval) (w : world) :
  let w' := snd (pay is_valid_code c action_type currency_code cancel_url
                   return_url ipn_callback_url receivers fees_payer extra w) in
  get_payment_url_extra w' = get_payment_url_extra w /\
  set_payment_options_extra w' = set_payment_options_extra w /\
  (extra <> None -> pay_extra w' = pay_extra w).
Proof.
  cbv zeta.
  destruct (pay_outcome is_valid_code c action_type currency_code cancel_url
              return_url ipn_callback_url receivers fees_payer extra w)
    as [(err & Herr)|(e & l & _ & _ & Hcall)].
  - rewrite Herr. repeat split; reflexivity.
  - rewrite Hcall.
    set (d := pay_payload e action_type currency_code cancel_url return_url
                ipn_callback_url (PReceiverList l) fees_payer).
    destruct (net_store_pay_extra extra d w) as (_ & Hg & Hs & Hp).
    destruct (call_raises_or_sends c "Pay" d (store_pay_extra extra d w))
      as [(v & _ & Hraise)|(_ & Hsend)].
    + rewrite Hraise. simpl. repeat split; try assumption.
      intros Hextra. rewrite Hp. destruct extra; [reflexivity|congruence].
    + rewrite Hsend. unfold send. simpl. repeat split; try assumption.
      intros Hextra. rewrite Hp. destruct extra; [reflexivity|congruence].
Qed.

(** X11: when [pay] is called without [extra] and sends a request, its
    default mapping afterwards holds exactly the params that were sent. *)
Theorem pay_default_extra_holds_what_was_sent (c : client)
    (action_type currency_code cancel_url return_url ipn_callback_url
     receivers fees_payer : pyval) (w : world) r w' (req : request) :
  pay is_valid_code c action_type currency_code cancel_url return_url
    ipn_callback_url receivers fees_payer None w = (r, w') ->
  net w' = (net w ++ [req])%list ->
  pay_extra w' = params req.
Proof.
  intros Hpay Hnet.
  destruct (pay_dispatched _ _ _ _ _ _ _ _ _ _ _ _ _ Hpay Hnet)
    as (e & l & _ & _ & _ & _ & Hdefault).
  exact Hdefault.
Qed.

(** X12: of two calls of [pay] without [extra] that both send a request,
    the second sends every field of the first that it does not set itself:
    each field under a name other than the seven [pay] writes, and the
    [feesPayer] of the first when the second names no fees payer. *)
Theorem pay_default_extra_carries_over (c1 c2 : client)
    (action_type1 currency_code1 cancel_url1 return_url1 ipn_callback_url1
     receivers1 fees_payer1 : pyval)
    (action_type2 currency_code2 cancel_url2 return_url2 ipn_callback_url2
     receivers2 fees_payer2 : pyval)
    (w : world) r1 w1 r2 w2 (req1 req2 : request) :
  pay is_valid_code c1 action_type1 currency_code1 cancel_url1 return_url1
    ipn_callback_url1 receivers1 fees_payer1 None w = (r1, w1) ->
  net w1 = (net w ++ [req1])%list ->
  pay is_valid_code c2 action_type2 currency_code2 cancel_url2 return_url2
    ipn_callback_url2 receivers2 fees_payer2 None w1 = (r2, w2) ->
  net w2 = (net w1 ++ [req2])%list ->
  (forall key,
     key ∉ ["actionType"; "receiverList"; "currencyCode"; "cancelUrl";
            "returnUrl"; "ipnNotificationUrl"; "feesPayer"] ->
     params req2 !! key = params req1 !! key) /\
  (truthy fees_payer2 = false ->
   params req2 !! "feesPayer" = params req1 !! "feesPayer").
Proof.
  intros Hpay1 Hnet1 Hpay2 Hnet2.
  destruct (pay_dispatched _ _ _ _ _ _ _ _ _ _ _ _ _ Hpay1 Hnet1)
    as (e1 & l1 & _ & _ & _ & _ & Hdefault).
  destruct (pay_dispatched _ _ _ _ _ _ _ _ _ _ _ _ _ Hpay2 Hnet2)
    as (e2 & l2 & He2 & _ & Hparams2 & _ & _).
  inversion He2 as [He]. rewrite Hdefault in He. subst e2.
  split.
  - intros key Hkey. rewrite Hparams2. apply pay_payload_other. exact Hkey.
  - intros Hfalsy. rewrite Hparams2.
    unfold pay_payload. unfold set_nonempty_param at 1. rewrite Hfalsy.
    unfold set_nonempty_param, py_update, derived_fields.
    destruct (truthy ipn_callback_url2);
      rewrite ?lookup_insert_ne by discriminate;
      (rewrite lookup_union_r; [reflexivity|]);
      rewrite !lookup_insert_ne by discriminate; apply lookup_empty.
Qed.

(** X13: with a field named [endpoint] in the caller's [extra], [pay]
    always raises: nothing is sent, and the default mappings of the module
    are as they were. *)
Theorem pay_with_endpoint_in_extra_raises (c : client)
    (action_type currency_code cancel_url return_url ipn_callback_url
     receivers fees_payer : pyval) (e : dict) (v : pyval) (w : world) :
  e !! "endpoint" = Some v ->
  exists err : pyerr,
    pay is_valid_code c action_type currency_code cancel_url return_url
      ipn_callback_url receivers fees_payer (Some (PDict e)) w =
    (Raise err, w).
Proof.
  intros Hendpoint.
  destruct (pay_outcome is_valid_code c action_type currency_code cancel_url
              return_url ipn_callback_url receivers fees_payer
              (Some (PDict e)) w)
    as [(err & Herr)|(e' & l & He & _ & Hcall)].
  - exists err. exact Herr.
  - inversion He; subst e'. rewrite Hcall. simpl store_pay_extra.
    unfold call. rewrite pay_payload_endpoint, Hendpoint.
    eexists. reflexivity.
Qed.

End PayRuns.

(** ** Receivers and fees payer as [pay] reads them *)

Lemma first_empty_receivers
    (action_type currency_code cancel_url return_url ipn_callback_url
     receivers1 receivers2 : pyval) :
  truthy receivers1 = truthy receivers2 ->
  first_empty (required_values action_type currency_code cancel_url
                 return_url ipn_callback_url receivers1) =
  first_empty (required_values action_type currency_code cancel_url
                 return_url ipn_callback_url receivers2).
Proof.
  intros Htruthy. unfold first_empty, required_values. simpl.
  rewrite Htruthy.
  destruct (truthy cancel_url), (truthy return_url), (truthy currency_code),
    (truthy action_type), (truthy receivers2), (truthy ipn_callback_url);
    reflexivity.
Qed.

Lemma pay_payload_falsy_fees_payer (e : dict)
    (action_type currency_code cancel_url return_url ipn_callback_url
     receivers fees_payer : pyval) :
  truthy fees_payer = false ->
  pay_payload e action_type currency_code cancel_url return_url
    ipn_callback_url receivers fees_payer =
  pay_payload e action_type currency_code cancel_url return_url
    ipn_callback_url receivers PNone.
Proof.
  intros Hfalsy. unfold pay_payload. unfold set_nonempty_param at 1 3.
  rewrite Hfalsy. reflexivity.
Qed.

Lemma filter_unpopulated (ds : list dict) :
  Forall (fun d => populated d = false) ds ->
  filter (fun d => populated d = true) ds = [].
Proof.
  induction 1 as [|d ds Hd _ IH]; [reflexivity|].
  rewrite filter_cons, decide_False by (rewrite Hd; discriminate). exact IH.
Qed.

Lemma new_of_records (ds : list dict) :
  ReceiverList.new (PList (PDict <$> ds)) =
  Ok ((fun d => PDict (canonical d)) <$> filter (fun d => populated d = true) ds).
Proof.
  assert (Hextend :
    ReceiverList.extend (PList (PDict <$> ds)) [] =
    (Ok tt,
     (fun d => PDict (canonical d)) <$> filter (fun d => populated d = true) ds)).
  { unfold ReceiverList.extend, bind, lift. simpl.
    apply (extend_items_records ds []). }
  unfold ReceiverList.new, ReceiverList.init.
  destruct ds as [|d ds]; [reflexivity|].
  change (truthy (PList (PDict <$> d :: ds))) with true. cbv iota.
  rewrite Hextend. reflexivity.
Qed.

Lemma new_non_record (ds : list dict) (obj : pyval) (rest : list pyval) :
  is_record obj = false ->
  ReceiverList.new (PList ((PDict <$> ds) ++ obj :: rest)) =
  Raise (AttributeError "get").
Proof.
  intros Hobj. unfold ReceiverList.new, ReceiverList.init.
  assert (Htruthy : truthy (PList ((PDict <$> ds) ++ obj :: rest)) = true).
  { destruct ds; reflexivity. }
  rewrite Htruthy, (extend_non_record ds obj rest [] Hobj). reflexivity.
Qed.

Section PayArguments.

Variable is_valid_code : pyval -> bool.

(** X14: a single non-empty record as [receivers] is the same to [pay] as
    the list holding just that record: same result, same request, same
    state afterwards. *)
Theorem pay_bare_record_is_one_item_list (c : client)
    (action_type currency_code cancel_url return_url ipn_callback_url
     fees_payer : pyval) (d : dict) (extra : option pyval) (w : world) :
  d <> ∅ ->
  pay is_valid_code c action_type currency_code cancel_url return_url
    ipn_callback_url (PDict d) fees_payer extra w =
  pay is_valid_code c action_type currency_code cancel_url return_url
    ipn_callback_url (PList [PDict d]) fees_payer extra w.
Proof.
  intros Hd. rewrite !pay_unfold.
  rewrite (first_empty_receivers action_type currency_code cancel_url
             return_url ipn_callback_url (PDict d) (PList [PDict d]))
    by (rewrite (truthy_record d Hd); reflexivity).
  reflexivity.
Qed.

(** X15: an empty fees payer (the empty string, say) is to [pay] the same
    as none: it is not checked against the supported ones and no
    [feesPayer] is set from it. *)
Theorem pay_falsy_fees_payer_is_none (c : client)
    (action_type currency_code cancel_url return_url ipn_callback_url
     receivers fees_payer : pyval) (extra : option pyval) (w : world) :
  truthy fees_payer = false ->
  pay is_valid_code c action_type currency_code cancel_url return_url
    ipn_callback_url receivers fees_payer extra w =
  pay is_valid_code c action_type currency_code cancel_url return_url
    ipn_callback_url receivers PNone extra w.
Proof.
  intros Hfalsy. rewrite !pay_unfold. rewrite Hfalsy.
  change (truthy PNone) with false. cbv iota.
  destruct (first_empty _) as [name|]; [reflexivity|].
  destruct (negb (is_valid_code currency_code)); [reflexivity|].
  destruct (py_in action_type SUPPORTED_PAY_ACTIONS) as [[|]|ea];
    try reflexivity.
  destruct (normalized receivers) as [l|en]; [|reflexivity].
  destruct (match extra with Some v => v | None => PDict (pay_extra w) end);
    try reflexivity.
  cbv zeta. rewrite (pay_payload_falsy_fees_payer _ _ _ _ _ _ _ _ Hfalsy).
  reflexivity.
Qed.

(** X16: when every record of a [receivers] list lacks both email and
    amount, [pay] does not stop: the list is not empty, so the required
    check passes, all records are dropped, and the request that is sent has
    an empty [receiver] list. *)
Theorem pay_sends_empty_receiver_list (c : client)
    (action_type currency_code cancel_url return_url ipn_callback_url
     fees_payer : pyval) (ds : list dict) (extra : option pyval)
    (w : world) r w' (req : request) :
  Forall (fun d => populated d = false) ds ->
  pay is_valid_code c action_type currency_code cancel_url return_url
    ipn_callback_url (PList (PDict <$> ds)) fees_payer extra w = (r, w') ->
  net w' = (net w ++ [req])%list ->
  params req !! "receiverList" =
  Some (PDict {["receiver" := PReceiverList []]}).
Proof.
  intros Hempty Hpay Hnet.
  destruct (pay_dispatched _ _ _ _ _ _ _ _ _ _ _ _ _ _ Hpay Hnet)
    as (e & l & _ & Hnorm & Hparams & _ & _).
  cbn [normalized] in Hnorm.
  rewrite new_of_records, (filter_unpopulated ds Hempty) in Hnorm.
  inversion Hnorm; subst l.
  rewrite Hparams. apply pay_payload_receiverList.
Qed.


(** X18: a [receivers] list with an item that is not a mapping makes [pay]
    raise AttributeError after its checks have passed; nothing is sent and
    the default [extra] has not been written to. *)
Theorem pay_non_record_receiver_raises (c : client)
    (action_type currency_code cancel_url return_url ipn_callback_url
     fees_payer : pyval) (ds : list dict) (obj : pyval) (rest : list pyval)
    (extra : option pyval) (w : world) :
  is_record obj = false ->
  passes_checks is_valid_code action_type currency_code cancel_url return_url
    ipn_callback_url (PList ((PDict <$> ds) ++ obj :: rest)) fees_payer ->
  pay is_valid_code c action_type currency_code cancel_url return_url
    ipn_callback_url (PList ((PDict <$> ds) ++ obj :: rest)) fees_payer
    extra w =
  (Raise (AttributeError "get"), w).
Proof.
  intros Hobj Hchecks.
  rewrite (pay_after_checks _ _ _ _ _ _ _ _ _ _ _ Hchecks).
  cbn [normalized]. rewrite (new_non_record ds obj rest Hobj). reflexivity.
Qed.

End PayArguments.

(** ** The other requests *)

Lemma set_nonempty_param_lookup (target : dict) (key : string) (value : pyval) :
  set_nonempty_param target key value !! key =
  if truthy value then Some value else target !! key.
Proof.
  unfold set_nonempty_param. destruct (truthy value); [|reflexivity].
  apply lookup_insert_eq.
Qed.

Lemma set_nonempty_param_lookup_ne (target : dict) (key key' : string)
    (value : pyval) :
  key <> key' -> set_nonempty_param target key value !! key' = target !! key'.
Proof.
  intros Hne. unfold set_nonempty_param. destruct (truthy value); [|reflexivity].
  apply lookup_insert_ne. exact Hne.
Qed.

Lemma set_payment_options_dispatched (c : client)
    (pay_key receiver_options display_options sender_options
     shipping_address_id initiating_entity : pyval) (extra : option pyval)
    (w : world) r w' (req : request) :
  set_payment_options c pay_key receiver_options display_options
    sender_options shipping_address_id initiating_entity extra w = (r, w') ->
  net w' = (net w ++ [req])%list ->
  exists e : dict,
    match extra with
    | Some v => v
    | None => PDict (set_payment_options_extra w)
    end = PDict e /\
    params req =
      set_payment_options_payload e pay_key receiver_options display_options
        sender_options shipping_address_id initiating_entity /\
    set_payment_options_extra w' =
      match extra with
      | Some _ => set_payment_options_extra w
      | None => params req
      end.
Proof.
  intros Hrun Hnet. rewrite set_payment_options_unfold in Hrun.
  destruct (match extra with
            | Some v => v
            | None => PDict (set_payment_options_extra w)
            end) as [| | | | |e| |] eqn:Hextra;
    try (inversion Hrun; subst; exfalso;
         exact (snoc_neq _ _ (eq_sym Hnet))).
  cbv zeta in Hrun.
  set (d := set_payment_options_payload e pay_key receiver_options
              display_options sender_options shipping_address_id
              initiating_entity) in *.
  assert (Hstore :
    net (store_set_payment_options_extra extra d w) = net w /\
    set_payment_options_extra (store_set_payment_options_extra extra d w) =
      match extra with
      | Some _ => set_payment_options_extra w
      | None => d
      end).
  { destruct extra; split; reflexivity. }
  destruct Hstore as [Hn Hs].
  apply call_net in Hrun.
  destruct Hrun as [[_ Hw]|(_ & _ & Hsent & _ & _ & Hspo)].
  - subst w'. rewrite Hn in Hnet.
    exfalso. exact (snoc_neq _ _ (eq_sym Hnet)).
  - rewrite Hn in Hsent. rewrite Hsent in Hnet.
    apply app_inj_tail in Hnet. destruct Hnet as [_ Hreq]. subst req.
    exists e. simpl. split; [reflexivity|]. split; [reflexivity|].
    rewrite Hspo, Hs. destruct extra; reflexivity.
Qed.

(** X19: in the request [set_payment_options] sends, [payKey] is the given
    pay key, whatever the caller's [extra] had under that name; each of the
    five option fields is the given value when that is non-empty and is
    otherwise left as [extra] had it; every other field of [extra] is sent
    as it is. *)
Theorem set_payment_options_fields (c : client)
    (pay_key receiver_options display_options sender_options
     shipping_address_id initiating_entity : pyval) (extra : dict)
    (w : world) r w' (req : request) :
  set_payment_options c pay_key receiver_options display_options
    sender_options shipping_address_id initiating_entity
    (Some (PDict extra)) w = (r, w') ->
  net w' = (net w ++ [req])%list ->
  params req !! "payKey" = Some pay_key /\
  params req !! "receiverOptions" =
    (if truthy receiver_options then Some receiver_options
     else extra !! "receiverOptions") /\
  params req !! "displayOptions" =
    (if truthy display_options then Some display_options
     else extra !! "displayOptions") /\
  params req !! "senderOptions" =
    (if truthy sender_options then Some sender_options
     else extra !! "senderOptions") /\
  params req !! "shippingAddressId" =
    (if truthy shipping_address_id then Some shipping_address_id
     else extra !! "shippingAddressId") /\
  params req !! "initiatingEntity" =
    (if truthy initiating_entity then Some initiating_entity
     else extra !! "initiatingEntity") /\
  (forall key,
     key ∉ ["payKey"; "receiverOptions"; "displayOptions"; "senderOptions";
            "shippingAddressId"; "initiatingEntity"] ->
     params req !! key = extra !! key).
Proof.
  intros Hrun Hnet.
  destruct (set_payment_options_dispatched _ _ _ _ _ _ _ _ _ _ _ _ Hrun Hnet)
    as (e & He & Hparams & _).
  inversion He; subst e. rewrite Hparams.
  unfold set_payment_options_payload.
  split; [|split; [|split; [|split; [|split; [|split]]]]].
  - rewrite !set_nonempty_param_lookup_ne by discriminate.
    apply lookup_insert_eq.
  - rewrite set_nonempty_param_lookup.
    rewrite !set_nonempty_param_lookup_ne by discriminate.
    rewrite lookup_insert_ne by discriminate. reflexivity.
  - rewrite !(set_nonempty_param_lookup_ne _ "receiverOptions") by discriminate.
    rewrite !(set_nonempty_param_lookup_ne _ "senderOptions") by discriminate.
    rewrite !(set_nonempty_param_lookup_ne _ "shippingAddressId")
      by discriminate.
    rewrite set_nonempty_param_lookup.
    rewrite !set_nonempty_param_lookup_ne by discriminate.
    rewrite lookup_insert_ne by discriminate. reflexivity.
  - rewrite !(set_nonempty_param_lookup_ne _ "receiverOptions") by discriminate.
    rewrite set_nonempty_param_lookup.
    rewrite !set_nonempty_param_lookup_ne by discriminate.
    rewrite lookup_insert_ne by discriminate. reflexivity.
  - rewrite !(set_nonempty_param_lookup_ne _ "receiverOptions") by discriminate.
    rewrite !(set_nonempty_param_lookup_ne _ "senderOptions") by discriminate.
    rewrite set_nonempty_param_lookup.
    rewrite !set_nonempty_param_lookup_ne by discriminate.
    rewrite lookup_insert_ne by discriminate. reflexivity.
  - rewrite !(set_nonempty_param_lookup_ne _ "receiverOptions") by discriminate.
    rewrite !(set_nonempty_param_lookup_ne _ "senderOptions") by discriminate.
    rewrite !(set_nonempty_param_lookup_ne _ "shippingAddressId")
      by discriminate.
    rewrite !(set_nonempty_param_lookup_ne _ "displayOptions") by discriminate.
    rewrite set_nonempty_param_lookup.
    rewrite lookup_insert_ne by discriminate. reflexivity.
  - intros key Hkey.
    assert (Hne : forall k : string,
              k ∈ ["payKey"; "receiverOptions"; "displayOptions";
                   "senderOptions"; "shippingAddressId"; "initiatingEntity"] ->
              k <> key).
    { intros k Hk Heq. subst k. exact (Hkey Hk). }
    rewrite !set_nonempty_param_lookup_ne by (apply Hne; set_solver).
    apply lookup_insert_ne. apply Hne. set_solver.
Qed.

(** X20: [set_payment_options] checks none of its arguments: whatever the
    pay key and the options are, [None] included, a caller's [extra]
    without a field named [endpoint] goes out in exactly one
    [SetPaymentOptions] request, and the client's answer is the result. *)
Theorem set_payment_options_checks_nothing (c : client)
    (pay_key receiver_options display_options sender_options
     shipping_address_id initiating_entity : pyval) (extra : dict)
    (w : world) :
  extra !! "endpoint" = None ->
  exists (req : request) (w' : world),
    set_payment_options c pay_key receiver_options display_options
      sender_options shipping_address_id initiating_entity
      (Some (PDict extra)) w = (client_call c req, w') /\
    net w' = (net w ++ [req])%list /\
    service req = "AdaptivePayments" /\
    method req = "SetPaymentOptions" /\
    params req !! "payKey" = Some pay_key.
Proof.
  intros Hfree. rewrite set_payment_options_unfold. cbv zeta.
  simpl store_set_payment_options_extra.
  set (d := set_payment_options_payload extra pay_key receiver_options
              display_options sender_options shipping_address_id
              initiating_entity).
  assert (Hd : d !! "endpoint" = None).
  { subst d. unfold set_payment_options_payload.
    rewrite !set_nonempty_param_lookup_ne by discriminate.
    rewrite lookup_insert_ne by discriminate. exact Hfree. }
  assert (Hkey : d !! "payKey" = Some pay_key).
  { subst d. unfold set_payment_options_payload.
    rewrite !set_nonempty_param_lookup_ne by discriminate.
    apply lookup_insert_eq. }
  unfold call. rewrite Hd. unfold send. eexists. eexists.
  split; [reflexivity|]. simpl. repeat split; try reflexivity. exact Hkey.
Qed.

(** X21: when [set_payment_options] is called without [extra] and sends a
    request, its default mapping afterwards holds exactly the params that
    were sent, and the next call without [extra] starts from them. *)
Theorem set_payment_options_default_holds_what_was_sent (c : client)
    (pay_key receiver_options display_options sender_options
     shipping_address_id initiating_entity : pyval)
    (w : world) r w' (req : request) :
  set_payment_options c pay_key receiver_options display_options
    sender_options shipping_address_id initiating_entity None w = (r, w') ->
  net w' = (net w ++ [req])%list ->
  set_payment_options_extra w' = params req.
Proof.
  intros Hrun Hnet.
  destruct (set_payment_options_dispatched _ _ _ _ _ _ _ _ _ _ _ _ Hrun Hnet)
    as (e & _ & _ & Hdefault).
  exact Hdefault.
Qed.

(** X22: [get_payment_options], [execute] and [get_shipping_addresses]
    check nothing and never raise on their own: each hands one request to
    the client, holding the key under [payKey] (under [key] for
    [get_shipping_addresses]) and nothing else, and returns the client's
    answer. *)
Theorem single_key_requests (c : client) (key : pyval) (w : world) :
  let request_for (meth : string) (p : dict) :=
    {| service := "AdaptivePayments"; method := meth;
       endpoint := if in_sandbox (client_config c)
                   then SANDBOX_ENDPOINT else PRODUCTION_ENDPOINT;
       params := p |} in
  get_payment_options c key w =
    send c (request_for "GetPaymentOptions" {["payKey" := key]}) w /\
  execute c key w =
    send c (request_for "ExecutePayment" {["payKey" := key]}) w /\
  get_shipping_addresses c key w =
    send c (request_for "GetShippingAddresses" {["key" := key]}) w.
Proof.
  cbv zeta. unfold get_payment_options, execute, get_shipping_addresses, call.
  rewrite !lookup_singleton_ne by discriminate.
  destruct (in_sandbox (client_config c)); repeat split; reflexivity.
Qed.

(** ** Concrete runs of the further properties *)

Definition first_pay_request : request :=
  {| service := "AdaptivePayments"; method := "Pay";
     endpoint := SANDBOX_ENDPOINT;
     params :=
       pay_payload ∅ (PStr "PAY") (PStr "USD")
         (PStr "http://shop/cancel") (PStr "http://shop/return")
         (PStr "http://shop/ipn")
         (PReceiverList [PDict (canonical demo_receiver)]) (PStr "SENDER") |}.

Definition second_pay_request : request :=
  {| service := "AdaptivePayments"; method := "Pay";
     endpoint := SANDBOX_ENDPOINT;
     params :=
       pay_payload (params first_pay_request) (PStr "PAY") (PStr "USD")
         (PStr "http://shop/cancel") (PStr "http://shop/return")
         (PStr "http://shop/ipn")
         (PReceiverList [PDict (canonical demo_receiver)]) PNone |}.

Lemma demo_passes_checks (receivers fees_payer : pyval) :
  truthy receivers = true ->
  truthy fees_payer = false ->
  passes_checks only_usd (PStr "PAY") (PStr "USD") (PStr "http://shop/cancel")
    (PStr "http://shop/return") (PStr "http://shop/ipn") receivers fees_payer.
Proof.
  intros Hreceivers Hfees. unfold passes_checks, first_empty, required_values.
  simpl. rewrite Hreceivers, Hfees. simpl.
  repeat split; try reflexivity. discriminate.
Qed.

Lemma pay_reaches_client_once_witness :
  exists (req : request) (w' : world),
    pay only_usd (demo_client false) (PStr "PAY") (PStr "USD")
      (PStr "http://shop/cancel") (PStr "http://shop/return")
      (PStr "http://shop/ipn")
      (PReceiverList [PDict (canonical demo_receiver)]) PNone
      (Some (PDict demo_extra)) initial_world =
      (client_call (demo_client false) req, w') /\
    net w' = (net initial_world ++ [req])%list /\
    service req = "AdaptivePayments" /\
    method req = "Pay" /\
    params req =
      pay_payload demo_extra (PStr "PAY") (PStr "USD")
        (PStr "http://shop/cancel") (PStr "http://shop/return")
        (PStr "http://shop/ipn")
        (PReceiverList [PDict (canonical demo_receiver)]) PNone.
Proof.
  apply (pay_reaches_client_once only_usd (demo_client false) (PStr "PAY")
           (PStr "USD") (PStr "http://shop/cancel") (PStr "http://shop/return")
           (PStr "http://shop/ipn")
           (PReceiverList [PDict (canonical demo_receiver)]) PNone
           (Some (PDict demo_extra)) initial_world demo_extra
           [PDict (canonical demo_receiver)]).
  - apply demo_passes_checks; reflexivity.
  - reflexivity.
  - reflexivity.
  - reflexivity.
Defined.

Lemma first_pay_run :
  pay only_usd (demo_client true) (PStr "PAY") (PStr "USD")
    (PStr "http://shop/cancel") (PStr "http://shop/return")
    (PStr "http://shop/ipn") (PList [PDict demo_receiver])
    (PStr "SENDER") None initial_world = (fst first_pay, snd first_pay) /\
  net (snd first_pay) = (net initial_world ++ [first_pay_request])%list.
Proof. split; vm_compute; reflexivity. Qed.

Lemma second_pay_run :
  pay only_usd (demo_client true) (PStr "PAY") (PStr "USD")
    (PStr "http://shop/cancel") (PStr "http://shop/return")
    (PStr "http://shop/ipn") (PList [PDict demo_receiver])
    PNone None (snd first_pay) = (fst second_pay, snd second_pay) /\
  net (snd second_pay) = (net (snd first_pay) ++ [second_pay_request])%list.
Proof. split; vm_compute; reflexivity. Qed.

Lemma pay_default_extra_holds_what_was_sent_witness :
  pay_extra (snd first_pay) = params first_pay_request.
Proof.
  exact (pay_default_extra_holds_what_was_sent only_usd _ _ _ _ _ _ _ _ _ _ _ _
           (proj1 first_pay_run) (proj2 first_pay_run)).
Defined.

Lemma pay_default_extra_carries_over_witness :
  params second_pay_request !! "feesPayer" =
  params first_pay_request !! "feesPayer".
Proof.
  apply (proj2 (pay_default_extra_carries_over only_usd _ _ _ _ _ _ _ _ _ _ _
                  _ _ _ _ _ _ _ _ _ _ _ _
                  (proj1 first_pay_run) (proj2 first_pay_run)
                  (proj1 second_pay_run) (proj2 second_pay_run))).
  reflexivity.
Defined.

Lemma pay_with_endpoint_in_extra_raises_witness :
  exists err : pyerr,
    pay only_usd (demo_client true) (PStr "PAY") (PStr "USD")
      (PStr "http://shop/cancel") (PStr "http://shop/return")
      (PStr "http://shop/ipn") (PList [PDict demo_receiver]) PNone
      (Some (PDict {["endpoint" := PStr "https://example.org"]}))
      initial_world = (Raise err, initial_world).
Proof.
  apply (pay_with_endpoint_in_extra_raises only_usd (demo_client true)
           (PStr "PAY") (PStr "USD") (PStr "http://shop/cancel")
           (PStr "http://shop/return") (PStr "http://shop/ipn")
           (PList [PDict demo_receiver]) PNone
           {["endpoint" := PStr "https://example.org"]}
           (PStr "https://example.org") initial_world).
  reflexivity.
Defined.

Lemma pay_bare_record_is_one_item_list_witness :
  pay only_usd (demo_client true) (PStr "PAY") (PStr "USD")
    (PStr "http://shop/cancel") (PStr "http://shop/return")
    (PStr "http://shop/ipn") (PDict demo_receiver) PNone None initial_world =
  pay only_usd (demo_client true) (PStr "PAY") (PStr "USD")
    (PStr "http://shop/cancel") (PStr "http://shop/return")
    (PStr "http://shop/ipn") (PList [PDict demo_receiver]) PNone None
    initial_world.
Proof.
  apply (pay_bare_record_is_one_item_list only_usd (demo_client true)
           (PStr "PAY") (PStr "USD") (PStr "http://shop/cancel")
           (PStr "http://shop/return") (PStr "http://shop/ipn") PNone
           demo_receiver None initial_world).
  discriminate.
Defined.

Lemma pay_falsy_fees_payer_is_none_witness :
  pay only_usd (demo_client true) (PStr "PAY") (PStr "USD")
    (PStr "http://shop/cancel") (PStr "http://shop/return")
    (PStr "http://shop/ipn") (PList [PDict demo_receiver]) (PStr "") None
    initial_world =
  pay only_usd (demo_client true) (PStr "PAY") (PStr "USD")
    (PStr "http://shop/cancel") (PStr "http://shop/return")
    (PStr "http://shop/ipn") (PList [PDict demo_receiver]) PNone None
    initial_world.
Proof.
  apply (pay_falsy_fees_payer_is_none only_usd (demo_client true)
           (PStr "PAY") (PStr "USD") (PStr "http://shop/cancel")
           (PStr "http://shop/return") (PStr "http://shop/ipn")
           (PList [PDict demo_receiver]) (PStr "") None initial_world).
  reflexivity.
Defined.

(** [pay] with [receivers=[{}]]. *)
Definition pay_no_receiver : res response * world :=
  pay only_usd (demo_client true) (PStr "PAY") (PStr "USD")
    (PStr "http://shop/cancel") (PStr "http://shop/return")
    (PStr "http://shop/ipn") (PList (PDict <$> [∅])) PNone
    (Some (PDict ∅)) initial_world.

Definition pay_no_receiver_request : request :=
  {| service := "AdaptivePayments"; method := "Pay";
     endpoint := SANDBOX_ENDPOINT;
     params :=
       pay_payload ∅ (PStr "PAY") (PStr "USD")
         (PStr "http://shop/cancel") (PStr "http://shop/return")
         (PStr "http://shop/ipn") (PReceiverList []) PNone |}.

Lemma pay_sends_empty_receiver_list_witness :
  net (snd pay_no_receiver) = [pay_no_receiver_request] /\
  params pay_no_receiver_request !! "receiverList" =
  Some (PDict {["receiver" := PReceiverList []]}).
Proof.
  assert (Hnet : net (snd pay_no_receiver) =
                 (net initial_world ++ [pay_no_receiver_request])%list).
  { vm_compute. reflexivity. }
  split; [exact Hnet|].
  apply (pay_sends_empty_receiver_list only_usd (demo_client true)
           (PStr "PAY") (PStr "USD") (PStr "http://shop/cancel")
           (PStr "http://shop/return") (PStr "http://shop/ipn") PNone [∅]
           (Some (PDict ∅)) initial_world
           (fst pay_no_receiver) (snd pay_no_receiver)
           pay_no_receiver_request).
  - constructor; [reflexivity|constructor].
  - vm_compute. reflexivity.
  - exact Hnet.
Defined.


Lemma pay_non_record_receiver_raises_witness :
  pay only_usd (demo_client true) (PStr "PAY") (PStr "USD")
    (PStr "http://shop/cancel") (PStr "http://shop/return")
    (PStr "http://shop/ipn")
    (PList ((PDict <$> [demo_receiver]) ++ PStr "a@b.c" :: [])) PNone None
    initial_world =
  (Raise (AttributeError "get"), initial_world).
Proof.
  apply (pay_non_record_receiver_raises only_usd (demo_client true)
           (PStr "PAY") (PStr "USD") (PStr "http://shop/cancel")
           (PStr "http://shop/return") (PStr "http://shop/ipn") PNone
           [demo_receiver] (PStr "a@b.c") [] None initial_world).
  - reflexivity.
  - apply demo_passes_checks; reflexivity.
Defined.

(** [set_payment_options] with an [extra] that has a pay key of its own. *)
Definition set_options_with_extra : res response * world :=
  set_payment_options (demo_client true) (PStr "AP-1")
    (PDict {["description" := PStr "order 1"]}) PNone PNone PNone PNone
    (Some (PDict (<["payKey" := PStr "AP-0"]> {["memo" := PStr "m"]})))
    initial_world.

Definition set_options_with_extra_request : request :=
  {| service := "AdaptivePayments"; method := "SetPaymentOptions";
     endpoint := SANDBOX_ENDPOINT;
     params :=
       set_payment_options_payload
         (<["payKey" := PStr "AP-0"]> {["memo" := PStr "m"]}) (PStr "AP-1")
         (PDict {["description" := PStr "order 1"]}) PNone PNone PNone PNone |}.

Lemma set_payment_options_fields_witness :
  params set_options_with_extra_request !! "payKey" = Some (PStr "AP-1") /\
  params set_options_with_extra_request !! "displayOptions" = None /\
  params set_options_with_extra_request !! "memo" = Some (PStr "m").
Proof.
  assert (Hrun :
    set_payment_options (demo_client true) (PStr "AP-1")
      (PDict {["description" := PStr "order 1"]}) PNone PNone PNone PNone
      (Some (PDict (<["payKey" := PStr "AP-0"]> {["memo" := PStr "m"]})))
      initial_world =
    (fst set_options_with_extra, snd set_options_with_extra)).
  { vm_compute. reflexivity. }
  assert (Hnet : net (snd set_options_with_extra) =
                 (net initial_world ++ [set_options_with_extra_request])%list).
  { vm_compute. reflexivity. }
  destruct (set_payment_options_fields _ _ _ _ _ _ _ _ _ _ _ _ Hrun Hnet)
    as (Hkey & _ & Hdisplay & _ & _ & _ & Hother).
  split; [exact Hkey|]. split; [exact Hdisplay|].
  rewrite (Hother "memo"); [reflexivity|].
  intros Hin. repeat (apply elem_of_cons in Hin as [Heq|Hin]; [discriminate|]).
  inversion Hin.
Defined.

Lemma set_payment_options_checks_nothing_witness :
  exists (req : request) (w' : world),
    set_payment_options (demo_client true) PNone PNone PNone PNone PNone PNone
      (Some (PDict ∅)) initial_world =
      (client_call (demo_client true) req, w') /\
    net w' = (net initial_world ++ [req])%list /\
    service req = "AdaptivePayments" /\
    method req = "SetPaymentOptions" /\
    params req !! "payKey" = Some PNone.
Proof.
  apply (set_payment_options_checks_nothing (demo_client true) PNone PNone
           PNone PNone PNone PNone ∅ initial_world).
  reflexivity.
Defined.

Definition first_set_payment_options_request : request :=
  {| service := "AdaptivePayments"; method := "SetPaymentOptions";
     endpoint := SANDBOX_ENDPOINT;
     params :=
       set_payment_options_payload ∅ (PStr "AP-1")
         (PDict {["description" := PStr "order 1"]})
         (PDict {["businessName" := PStr "Shop"]}) PNone PNone PNone |}.

Lemma set_payment_options_default_holds_what_was_sent_witness :
  set_payment_options_extra (snd first_set_payment_options) =
  params first_set_payment_options_request.
Proof.
  apply (set_payment_options_default_holds_what_was_sent (demo_client true)
           (PStr "AP-1") (PDict {["description" := PStr "order 1"]})
           (PDict {["businessName" := PStr "Shop"]}) PNone PNone PNone
           initial_world (fst first_set_payment_options)
           (snd first_set_payment_options) first_set_payment_options_request).
  - vm_compute. reflexivity.
  - vm_compute. reflexivity.
Defined.
